(** * deepstate-map-data-analytics: the snapshot pipeline of [script.py]

    A shallow embedding of [script.py] and the properties of its
    specification.  The script fetches a daily payload of named
    geometries, normalises the labels, keeps the polygons of three
    categories, merges them, writes a dated GeoJSON artifact and extends a
    cumulative CSV table with one row per polygon of every artifact whose
    date the table does not hold yet.

    Conventions of the embedding.
    - A Python [str] is a [string]; a character is a code point below 256.
      On that range the character classes of Python ([\d], [str.isspace])
      are the ones written out below.
    - A raised exception is a value [Raise e] of [result].
    - The geometry kernel (shapely, GEOS) and the numbers it computes are
      the fields of the class [Shapely]; nothing is assumed about them.
    - The file system is explicit: the output directory is a finite map
      from entry names to contents, the table file is an optional list of
      rows (the CSV encoding is taken to reload the rows it stored), and
      every run returns the trace of the reads (of the table and of the
      artifacts), writes and log lines it performed.  The files of the
      store are files the libraries can read; what the script does when a
      read fails (it has no handler) is not part of the embedding. *)

From Stdlib Require Import Ascii String.
From stdpp Require Import base option list strings gmap sorting.

(** ** Exceptions *)

Inductive exn := IndexError | ValueError.

Inductive result (A : Type) :=
  | Ok (a : A)
  | Raise (e : exn).
Arguments Ok {A} a.
Arguments Raise {A} e.

#[global] Instance result_ret : MRet result := λ A a, Ok a.
#[global] Instance result_bind : MBind result := λ A B f m,
  match m with
  | Ok a => f a
  | Raise e => Raise e
  end.

(** ** The string methods the script calls *)

Module PyStr.

Local Open Scope Z_scope.

(** [s.startswith(p)] *)
Fixpoint startswith (s p : string) {struct p} : bool :=
  match p, s with
  | EmptyString, _ => true
  | String a p', String b s' => Ascii.eqb a b && startswith s' p'
  | String _ _, EmptyString => false
  end.

(** [s[n:]] *)
Fixpoint drop (n : nat) (s : string) : string :=
  match n, s with
  | S k, String _ s' => drop k s'
  | _, _ => s
  end.

(** [s.endswith(suffix)] *)
Definition endswith (s suffix : string) : bool :=
  (String.length suffix <=? String.length s)%nat &&
  String.eqb (drop (String.length s - String.length suffix) s) suffix.

(** [s.replace(old, "")]: one scan from the left; where [old] starts, its
    characters are skipped and the scan resumes behind them, so the
    occurrences removed do not overlap and text that only comes together
    through a removal stays.  [skip] counts the characters of the current
    occurrence still to be dropped. *)
Fixpoint replace_from (old : string) (skip : nat) (s : string) : string :=
  match s with
  | EmptyString => EmptyString
  | String c s' =>
      match skip with
      | S k => replace_from old k s'
      | O =>
          if startswith s old
          then replace_from old (String.length old - 1) s'
          else String c (replace_from old 0 s')
      end
  end.

Definition replace_del (s old : string) : string :=
  match old with
  | EmptyString => s
  | _ => replace_from old 0 s
  end.

(** [s.split(sep)]: the segments between the occurrences of [sep], found
    by the same left-to-right scan; [cur] is the segment being read.  An
    empty separator raises [ValueError]. *)
Fixpoint split_from (sep : string) (skip : nat) (cur s : string) : list string :=
  match s with
  | EmptyString => [cur]
  | String c s' =>
      match skip with
      | S k => split_from sep k cur s'
      | O =>
          if startswith s sep
          then cur :: split_from sep (String.length sep - 1) "" s'
          else split_from sep 0 (cur +:+ String c "") s'
      end
  end.

Definition split (s sep : string) : result (list string) :=
  match sep with
  | EmptyString => Raise ValueError
  | _ => Ok (split_from sep 0 "" s)
  end.

(** [l[i]] for an index [i >= 0] *)
Definition subscript {A} (l : list A) (i : nat) : result A :=
  match l !! i with
  | Some x => Ok x
  | None => Raise IndexError
  end.

(** [ord(c)] *)
Definition ord (c : ascii) : Z := Z.of_N (N_of_ascii c).

(** [c.isspace()] below code point 256: tab to carriage return, the four
    separators 28 to 31, the space, NEL and the no-break space. *)
Definition isspace (c : ascii) : bool :=
  let n := ord c in
  ((9 <=? n) && (n <=? 13)) || ((28 <=? n) && (n <=? 32))
  || (n =? 133) || (n =? 160).

Fixpoint lstrip (s : string) : string :=
  match s with
  | EmptyString => EmptyString
  | String c s' => if isspace c then lstrip s' else s
  end.

Fixpoint rstrip (s : string) : string :=
  match s with
  | EmptyString => EmptyString
  | String c s' =>
      match rstrip s' with
      | EmptyString => if isspace c then EmptyString else String c EmptyString
      | r => String c r
      end
  end.

(** [s.strip()] *)
Definition strip (s : string) : string := rstrip (lstrip s).

(** the value of a decimal digit, [int(c)] for [c] matched by [\d] *)
Definition digit (c : ascii) : option Z :=
  let n := ord c in
  if (48 <=? n) && (n <=? 57) then Some (n - 48) else None.

(** [sorted(names)]: the order of [str] is the lexicographic order of the
    code points. *)
Definition sorted_by_name {A} (l : list (string * A)) : list (string * A) :=
  merge_sort (λ a b, String.le a.1 b.1) l.

End PyStr.

(** ** [os.path] on POSIX *)

Module PosixPath.

(** [p[p.rfind('/') + 1:]] when [p] holds a slash *)
Fixpoint after_last_slash (p : string) : option string :=
  match p with
  | EmptyString => None
  | String c p' =>
      match after_last_slash p' with
      | Some t => Some t
      | None => if Ascii.eqb c "/" then Some p' else None
      end
  end.

(** [os.path.basename(p)] *)
Definition basename (p : string) : string :=
  default p (after_last_slash p).

(** [os.path.join(a, b)] *)
Definition join (a b : string) : string :=
  if PyStr.startswith b "/" then b
  else if String.eqb a "" || PyStr.endswith a "/" then a +:+ b
  else a +:+ "/" +:+ b.

End PosixPath.

(** ** [datetime]: calendar dates and [strptime] with the format [%Y%m%d] *)

Module Datetime.

Local Open Scope Z_scope.

Record date := mkdate { year : Z; month : Z; day : Z }.

#[global] Instance date_eq_dec : EqDecision date.
Proof. solve_decision. Defined.

#[global] Instance date_countable : Countable date.
Proof.
  refine (inj_countable' (λ d, (year d, month d, day d))
                         (λ t, mkdate t.1.1 t.1.2 t.2) _).
  by intros [].
Defined.

Definition is_leap (y : Z) : bool :=
  (y mod 4 =? 0) && (negb (y mod 100 =? 0) || (y mod 400 =? 0)).

Definition days_in_month (y m : Z) : Z :=
  match m with
  | 1 | 3 | 5 | 7 | 8 | 10 | 12 => 31
  | 4 | 6 | 9 | 11 => 30
  | 2 => if is_leap y then 29 else 28
  | _ => 0
  end.

(** the range check of [datetime.date(y, m, d)] *)
Definition is_valid (y m d : Z) : bool :=
  (1 <=? y) && (y <=? 9999) && (1 <=? m) && (m <=? 12)
  && (1 <=? d) && (d <=? days_in_month y m).

(** [datetime.date(y, m, d)] *)
Definition date_new (y m d : Z) : result date :=
  if is_valid y m d then Ok (mkdate y m d) else Raise ValueError.

(** The regular expression [strptime] compiles the format to is
    [(\d\d\d\d)(1[0-2]|0[1-9]|[1-9])(3[0-1]|[1-2]\d|0[1-9]|[1-9]| [1-9])].
    A pattern applied at the head of the input gives the readings the
    backtracking engine tries, in its order of preference, each with the
    text behind it. *)
Definition two_digits (ok : Z → Z → bool) (s : string) : list (Z * string) :=
  match s with
  | String a (String b rest) =>
      match PyStr.digit a, PyStr.digit b with
      | Some x, Some y => if ok x y then [(10 * x + y, rest)] else []
      | _, _ => []
      end
  | _ => []
  end.

Definition one_digit (ok : Z → bool) (s : string) : list (Z * string) :=
  match s with
  | String a rest =>
      match PyStr.digit a with
      | Some x => if ok x then [(x, rest)] else []
      | None => []
      end
  | EmptyString => []
  end.

Definition space_digit (ok : Z → bool) (s : string) : list (Z * string) :=
  match s with
  | String a rest => if Ascii.eqb a " " then one_digit ok rest else []
  | EmptyString => []
  end.

(** [%Y]: [\d\d\d\d] *)
Definition re_Y (s : string) : list (Z * string) :=
  '(hi, s') ← two_digits (λ _ _, true) s;
  '(lo, rest) ← two_digits (λ _ _, true) s';
  [(100 * hi + lo, rest)].

(** [%m]: [1[0-2]|0[1-9]|[1-9]] *)
Definition re_m (s : string) : list (Z * string) :=
  two_digits (λ x y, (x =? 1) && (y <=? 2)) s
  ++ two_digits (λ x y, (x =? 0) && (1 <=? y)) s
  ++ one_digit (λ x, 1 <=? x) s.

(** [%d]: [3[0-1]|[1-2]\d|0[1-9]|[1-9]| [1-9]] *)
Definition re_d (s : string) : list (Z * string) :=
  two_digits (λ x y, (x =? 3) && (y <=? 1)) s
  ++ two_digits (λ x _, (1 <=? x) && (x <=? 2)) s
  ++ two_digits (λ x y, (x =? 0) && (1 <=? y)) s
  ++ one_digit (λ x, 1 <=? x) s
  ++ space_digit (λ x, 1 <=? x) s.

Definition re_Ymd (s : string) : list (Z * Z * Z * string) :=
  '(y, s1) ← re_Y s;
  '(m, s2) ← re_m s1;
  '(d, s3) ← re_d s2;
  [(y, m, d, s3)].

(** [datetime.strptime(s, "%Y%m%d").date()]: the first match of the
    expression at the start of [s]; text left behind it is "unconverted
    data", and the fields found must name a day of the calendar. *)
Definition strptime_Ymd (s : string) : result date :=
  match head (re_Ymd s) with
  | None => Raise ValueError
  | Some (y, m, d, rest) =>
      match rest with
      | EmptyString => date_new y m d
      | _ => Raise ValueError
      end
  end.

End Datetime.

Export Datetime(date, mkdate, year, month, day).

(** ** The geometry kernel *)

(** What [isinstance] tells apart: a [Polygon], a [MultiPolygon] with its
    [geoms], or anything else (points, lines, collections, [None]). *)
Inductive geometry (polygon : Type) :=
  | Polygon (p : polygon)
  | MultiPolygon (geoms : list polygon)
  | OtherGeometry.
Arguments Polygon {polygon} p.
Arguments MultiPolygon {polygon} geoms.
Arguments OtherGeometry {polygon}.

(** shapely and geopandas as the script uses them.  [float] is the type of
    coordinates and areas; [shape_2d g] is
    [wkt.loads(wkt.dumps(shape(g), output_dimension=2))]. *)
Class Shapely := {
  float : Type;
  polygon : Type;
  raw_geometry : Type;
  shape_2d : raw_geometry → geometry polygon;
  unary_union : list (geometry polygon) → geometry polygon;
  buffer : geometry polygon → float → geometry polygon;
  eps : float;
  neg : float → float;
  centroid_x : polygon → float;
  centroid_y : polygon → float;
  polygon_area : polygon → float;
  polygon_wkt : polygon → string;
}.

(** ** [script.py] *)

Definition OUTPUT_DIR : string := "data".

Definition CSV_PATH : string := PosixPath.join OUTPUT_DIR "aggregated_deepstatemap.csv".

Section Script.
Context `{Shapely}.

(** *** [process_data] *)

Record raw_feature := {
  raw_geom : raw_geometry;
  raw_name : string;
}.

Record feature := {
  name : string;
  geom : geometry polygon;
}.

Definition extract_first_part (name : string) (part : nat) : result string :=
  segments ← PyStr.split name "///";
  segment ← PyStr.subscript segments part;
  mret (PyStr.strip segment).

Definition process_data (features : list raw_feature) : result (list feature) :=
  let geo_list :=
    (λ f, {| name := raw_name f; geom := shape_2d (raw_geom f) |}) <$> features in
  mapM (λ item,
          first_part ← extract_first_part (name item) 1;
          mret {| name := first_part; geom := geom item |})
       geo_list.

(** *** [create_geodataframe] *)

Definition is_Polygon (g : geometry polygon) : bool :=
  match g with
  | Polygon _ => true
  | _ => false
  end.

Definition isin (x : string) (values : list string) : bool :=
  bool_decide (x ∈ values).

Definition filtered_gdf (geo_list : list feature) : list feature :=
  let polygon_gdf := filter (λ f, is_Polygon (geom f) = true) geo_list in
  filter (λ f, isin (name f) ["CADR and CALR"; "Occupied"; "Occupied Crimea"] = true)
         polygon_gdf.

(** For a [geo_list] of at least one feature; a frame made of no record
    has no geometry column to filter on. *)
Definition create_geodataframe (geo_list : list feature) : geometry polygon :=
  let merged_gdf := unary_union (geom <$> filtered_gdf geo_list) in
  buffer (buffer merged_gdf eps) (neg eps).

(** *** [extract_date_from_filename] *)

(** the text handed to [strptime] *)
Definition date_str (filename : string) : string :=
  let basename := PosixPath.basename filename in
  PyStr.replace_del (PyStr.replace_del basename "deepstatemap_data_") ".geojson".

(** [try: ... except ValueError: return None]: any other exception would
    pass through. *)
Definition extract_date_from_filename (filename : string) : result (option date) :=
  match Datetime.strptime_Ymd (date_str filename) with
  | Ok d => Ok (Some d)
  | Raise ValueError => Ok None
  | Raise e => Raise e
  end.

(** *** [process_geojson] *)

(** a row of the frame [gpd.read_file] returns, and the frame *)
Record geo_row := {
  row_geometry : geometry polygon;
  row_name : option string;
}.

Record geo_frame := {
  has_name_column : bool;
  iterrows : list geo_row;
}.

(** a row of the aggregated table; [name_value] is absent when the frame
    read has no [name] column *)
Record agg_row := {
  date_of : date;
  centroid_lat : float;
  centroid_lon : float;
  area : float;
  geometry_wkt : string;
  name_value : option (option string);
}.

(** What a run does that can be seen from outside: [ReadCsv] is
    [pd.read_csv], [ReadFile] is [gpd.read_file], [WriteCsv] is [to_csv] on
    [CSV_PATH], the others are the lines of the log. *)
Inductive event :=
  | ReadCsv (filepath : string)
  | ReadFile (filepath : string)
  | WriteCsv (rows : list agg_row)
  | LogSkipping (file : string)
  | LogProcessing (file : string)
  | LogUpdated
  | LogNoInitialData
  | LogNoNewData.

Definition row_data (date : date) (named : bool) (row : geo_row) (polygon : polygon)
  : agg_row :=
  {| date_of := date;
     centroid_lat := centroid_y polygon;
     centroid_lon := centroid_x polygon;
     area := polygon_area polygon;
     geometry_wkt := polygon_wkt polygon;
     name_value := if named then Some (row_name row) else None |}.

Definition process_row (date : date) (named : bool) (row : geo_row) : list agg_row :=
  match row_geometry row with
  | OtherGeometry => []
  | MultiPolygon geoms => row_data date named row <$> geoms
  | Polygon p => row_data date named row <$> [p]
  end.

(** the loop over [gdf.iterrows()] *)
Definition processed_rows (date : date) (gdf : geo_frame) : list agg_row :=
  iterrows gdf ≫= process_row date (has_name_column gdf).

(** [content] is what [gpd.read_file(filepath)] returns; the trace tells
    whether the file was read. *)
Definition process_geojson (filepath : string) (content : geo_frame)
  : result (list agg_row * list event) :=
  date ← extract_date_from_filename filepath;
  match date with
  | None => mret ([], [])
  | Some date => mret (processed_rows date content, [ReadFile filepath])
  end.

(** *** [update_aggregated_csv] *)

(** The output directory and the table file.  [data_dir] holds the
    entries of the directory that [gpd.read_file] can read, each with the
    frame it reads to; [csv_file] is the table file, with the rows
    [pd.read_csv] reads from it, or [None] when [os.path.exists] finds none.
    The table file is an entry of the directory as well; its name does not
    end in [.geojson], the loop passes it over, and the listing leaves it
    out.  A table file that is there holds at least one row: the script
    writes no other, and the statements about runs take it so of the table
    they start from.  A directory with an entry that cannot be read, or a
    table without its [date] column, is outside this model: the script has
    no handler there and the run ends with the exception of the read. *)
Record store := {
  data_dir : gmap string geo_frame;
  csv_file : option (list agg_row);
}.

Definition listdir (d : gmap string geo_frame) : list (string * geo_frame) :=
  map_to_list d.

(** a [for] loop whose body may raise *)
Fixpoint for_each {A S} (body : S → A → result S) (s : S) (l : list A) : result S :=
  match l with
  | [] => Ok s
  | x :: l' => s' ← body s x; for_each body s' l'
  end.

(** [file_date in existing_dates]; [None] is no member of a set of dates *)
Definition date_in (file_date : option date) (existing_dates : gset date) : bool :=
  match file_date with
  | Some d => bool_decide (d ∈ existing_dates)
  | None => false
  end.

(** the body of the loop over the directory: [acc] holds
    [new_dataframes] and the trace so far *)
Definition scan_file (existing_dates : gset date)
    (acc : list (list agg_row) * list event) (entry : string * geo_frame)
  : result (list (list agg_row) * list event) :=
  let '(new_dataframes, trace) := acc in
  let '(file, content) := entry in
  if PyStr.endswith file ".geojson" then
    let full_path := PosixPath.join OUTPUT_DIR file in
    file_date ← extract_date_from_filename file;
    if date_in file_date existing_dates then
      mret (new_dataframes, trace ++ [LogSkipping file])
    else
      '(df, reads) ← process_geojson full_path content;
      mret (match df with
            | [] => new_dataframes
            | _ => new_dataframes ++ [df]
            end,
            trace ++ LogProcessing file :: reads)
  else mret acc.

(** [if os.path.exists(CSV_PATH)]: the table is read when it is there *)
Definition read_table (st : store) : list agg_row * list event :=
  match csv_file st with
  | Some rows => (rows, [ReadCsv CSV_PATH])
  | None => ([], [])
  end.

Definition update_aggregated_csv (st : store) : result (store * list event) :=
  let '(existing_df, opened) := read_table st in
  let existing_dates : gset date := list_to_set (date_of <$> existing_df) in
  '(new_dataframes, trace) ←
    for_each (scan_file existing_dates) ([], opened)
             (PyStr.sorted_by_name (listdir (data_dir st)));
  match new_dataframes with
  | [] =>
      mret (st, trace ++ [match csv_file st with
                          | None => LogNoInitialData
                          | Some _ => LogNoNewData
                          end])
  | _ =>
      let new_df := concat new_dataframes in
      let combined_df :=
        match existing_df with
        | [] => new_df
        | _ => existing_df ++ new_df
        end in
      mret ({| data_dir := data_dir st; csv_file := Some combined_df |},
            trace ++ [WriteCsv combined_df; LogUpdated])
  end.

(** [n] invocations in a row on the same directory, with the trace of each *)
Fixpoint rerun (n : nat) (st : store) : result (store * list (list event)) :=
  match n with
  | O => Ok (st, [])
  | S k =>
      '(st1, trace) ← update_aggregated_csv st;
      '(st2, traces) ← rerun k st1;
      mret (st2, trace :: traces)
  end.

(** *** The turns of the loop, for the statements below *)

(** what one turn of the loop over the directory adds to
    [new_dataframes] and to the trace *)
Inductive scan_step (dates : gset date) (f : string) (c : geo_frame)
  : list (list agg_row) → list event → Prop :=
  | step_other :
      PyStr.endswith f ".geojson" = false → scan_step dates f c [] []
  | step_skip d :
      PyStr.endswith f ".geojson" = true →
      extract_date_from_filename f = Ok (Some d) → d ∈ dates →
      scan_step dates f c [] [LogSkipping f]
  | step_no_date :
      PyStr.endswith f ".geojson" = true →
      extract_date_from_filename f = Ok None →
      scan_step dates f c [] [LogProcessing f]
  | step_empty d :
      PyStr.endswith f ".geojson" = true →
      extract_date_from_filename f = Ok (Some d) → d ∉ dates →
      processed_rows d c = [] →
      scan_step dates f c [] [LogProcessing f; ReadFile (PosixPath.join OUTPUT_DIR f)]
  | step_rows d :
      PyStr.endswith f ".geojson" = true →
      extract_date_from_filename f = Ok (Some d) → d ∉ dates →
      processed_rows d c ≠ [] →
      scan_step dates f c [processed_rows d c]
                [LogProcessing f; ReadFile (PosixPath.join OUTPUT_DIR f)].

(** the turns over a listing, in order *)
Inductive scan_steps (dates : gset date)
  : list (string * geo_frame) → list (list agg_row) → list event → Prop :=
  | steps_nil : scan_steps dates [] [] []
  | steps_cons f c l new evs new' evs' :
      scan_step dates f c new evs →
      scan_steps dates l new' evs' →
      scan_steps dates ((f, c) :: l) (new ++ new') (evs ++ evs').

(** a feature the Filter and Merger keeps: a single polygon of one of the
    three categories *)
Definition eligible (f : feature) : Prop :=
  (∃ p, geom f = Polygon p)
  ∧ (name f = "CADR and CALR" ∨ name f = "Occupied" ∨ name f = "Occupied Crimea").

(** the rows of the table, none when there is no file *)
Definition table (st : store) : list agg_row := default [] (csv_file st).

(** the dates the table covers *)
Definition covered (rows : list agg_row) : gset date :=
  list_to_set (date_of <$> rows).

End Script.

(** ** A kernel and two directories to run the script on *)

(** Polygons are numbered; the centroid, the area and the text of polygon
    [p] are made of its number. *)
Definition example_kernel : Shapely := {|
  float := Z;
  polygon := Z;
  raw_geometry := geometry Z;
  shape_2d := id;
  unary_union := λ _, OtherGeometry;
  buffer := λ g _, g;
  eps := 9%Z;
  neg := Z.opp;
  centroid_x := λ p, p;
  centroid_y := λ p, (2 * p)%Z;
  polygon_area := λ p, (p * p)%Z;
  polygon_wkt := λ _, "POLYGON";
|}.

Definition example_frame : @geo_frame example_kernel :=
  @Build_geo_frame example_kernel false
    [ @Build_geo_row example_kernel (Polygon 7%Z) None;
      @Build_geo_row example_kernel (MultiPolygon [1; 2; 3]%Z) None ].

(** an artifact without any polygon *)
Definition example_empty_frame : @geo_frame example_kernel :=
  @Build_geo_frame example_kernel false
    [ @Build_geo_row example_kernel OtherGeometry None ].


(** no table yet, and one artifact without any polygon *)
Definition example_empty_store : @store example_kernel :=
  @Build_store example_kernel
    {[ "deepstatemap_data_20240102.geojson" := example_empty_frame ]}
    None.

(** a table that covers the first of January 2024, beside the artifact of
    that day and the artifact of the next *)
Definition example_growing_store : @store example_kernel :=
  @Build_store example_kernel
    (<[ "deepstatemap_data_20240101.geojson" := example_frame ]>
       {[ "deepstatemap_data_20240102.geojson" := example_frame ]})
    (Some [ @Build_agg_row example_kernel (mkdate 2024 1 1) 14%Z 7%Z 49%Z
              "POLYGON" None ]).

(** no table yet; an artifact without any polygon and an artifact with
    polygons whose names carry the same date, the third of January 2024 *)
Definition example_shadowed_store : @store example_kernel :=
  @Build_store example_kernel
    (<[ "deepstatemap_data_20240103.geojson" := example_empty_frame ]>
       {[ "deepstatemap_data_2024013.geojson" := example_frame ]})
    None.

(** ** The vocabulary of the specification *)

Module Spec.

(** [sub] stands in [s] at offset [i] *)
Definition occurs_at (sub : string) (i : nat) (s : string) : Prop :=
  ∃ p q, s = p +:+ sub +:+ q ∧ String.length p = i.

Definition occurs (sub s : string) : Prop := ∃ i, occurs_at sub i s.

(** the leftmost occurrence *)
Definition first_at (sub : string) (i : nat) (s : string) : Prop :=
  occurs_at sub i s ∧ ∀ j, j < i → ¬ occurs_at sub j s.

(** The segments of [s] between the delimiters [sep], read from the left:
    a text without delimiter is its only segment; otherwise the first
    segment ends where the leftmost delimiter starts and the others are
    the segments of the text behind that delimiter. *)
Inductive segments (sep : string) : string → list string → Prop :=
  | segments_last s :
      ¬ occurs sep s → segments sep s [s]
  | segments_cons a r l :
      first_at sep (String.length a) (a +:+ sep +:+ r) →
      segments sep r l →
      segments sep (a +:+ sep +:+ r) (a :: l).

Fixpoint all_space (s : string) : bool :=
  match s with
  | EmptyString => true
  | String c s' => PyStr.isspace c && all_space s'
  end.

Definition first_char (s : string) : option ascii :=
  match s with
  | EmptyString => None
  | String c _ => Some c
  end.

Fixpoint last_char (s : string) : option ascii :=
  match s with
  | EmptyString => None
  | String c s' =>
      match last_char s' with
      | None => Some c
      | Some d => Some d
      end
  end.

(** [t] is [s] without the white space around it *)
Definition stripped_of (s t : string) : Prop :=
  (∃ l r, s = l +:+ t +:+ r ∧ all_space l = true ∧ all_space r = true)
  ∧ (∀ c, first_char t = Some c → PyStr.isspace c = false)
  ∧ (∀ c, last_char t = Some c → PyStr.isspace c = false).

(** The texts [strptime] takes for the fields of [%Y%m%d]: four digits
    for the year; one or two digits for the month; one or two digits, or
    a space and a digit, for the day. *)
Inductive year_text : string → Z → Prop :=
  | year_four a b c d x y z w :
      PyStr.digit a = Some x → PyStr.digit b = Some y →
      PyStr.digit c = Some z → PyStr.digit d = Some w →
      year_text (String a (String b (String c (String d ""))))
                (1000 * x + 100 * y + 10 * z + w).

Inductive month_text : string → Z → Prop :=
  | month_two a b x y :
      PyStr.digit a = Some x → PyStr.digit b = Some y →
      (1 ≤ 10 * x + y ≤ 12)%Z →
      month_text (String a (String b "")) (10 * x + y)
  | month_one a x :
      PyStr.digit a = Some x → (1 ≤ x)%Z →
      month_text (String a "") x.

Inductive day_text : string → Z → Prop :=
  | day_two a b x y :
      PyStr.digit a = Some x → PyStr.digit b = Some y →
      (1 ≤ 10 * x + y ≤ 31)%Z →
      day_text (String a (String b "")) (10 * x + y)
  | day_one a x :
      PyStr.digit a = Some x → (1 ≤ x)%Z →
      day_text (String a "") x
  | day_space a x :
      PyStr.digit a = Some x → (1 ≤ x)%Z →
      day_text (String " " (String a "")) x.

(** [s] reads as the date [d], with the month written [ms] *)
Definition reads_as (s ms : string) (d : date) : Prop :=
  ∃ ys ds, s = ys +:+ ms +:+ ds
           ∧ year_text ys (year d) ∧ month_text ms (month d) ∧ day_text ds (day d).

(** the reading [strptime] takes: of two readings of the same text, the
    one with the longer month *)
Definition preferred_reading (s : string) (d : date) : Prop :=
  ∃ ms, reads_as s ms d
        ∧ ∀ ms' d', reads_as s ms' d' → String.length ms' ≤ String.length ms.

(** [d] is a day of the calendar, in the years 1 to 9999 *)
Definition calendar_day (d : date) : Prop :=
  (1 ≤ year d ≤ 9999 ∧ 1 ≤ month d ≤ 12
   ∧ 1 ≤ day d ≤ Datetime.days_in_month (year d) (month d))%Z.

(** the strict form: eight digits, four for the year, two for the month
    and two for the day *)
Inductive YYYYMMDD : string → date → Prop :=
  | eight_digits y1 y2 y3 y4 m1 m2 d1 d2 a b c d x y z w :
      PyStr.digit y1 = Some a → PyStr.digit y2 = Some b →
      PyStr.digit y3 = Some c → PyStr.digit y4 = Some d →
      PyStr.digit m1 = Some x → PyStr.digit m2 = Some y →
      PyStr.digit d1 = Some z → PyStr.digit d2 = Some w →
      YYYYMMDD
        (String y1 (String y2 (String y3 (String y4
           (String m1 (String m2 (String d1 (String d2 ""))))))))
        (mkdate (1000 * a + 100 * b + 10 * c + d) (10 * x + y) (10 * z + w)).


End Spec.

(** ** The rest of [script.py] *)

(** *** [OUTPUT_FILENAME] *)

Module Strftime.

Local Open Scope Z_scope.

(** [chr(48 + n)], the digit of [n] *)
Definition digit_char (n : Z) : ascii := ascii_of_N (Z.to_N (48 + n)).

(** a number below 100 on two digits, the first a zero when there is need *)
Definition two_digit_text (n : Z) : string :=
  String (digit_char (n / 10)) (String (digit_char (n mod 10)) "").

(** [d.strftime("%Y%m%d")] for a year of four digits, as the clock gives:
    the year, then the month and the day on two digits each *)
Definition strftime_Ymd (d : date) : string :=
  two_digit_text (year d / 100) +:+ two_digit_text (year d mod 100)
  +:+ two_digit_text (month d) +:+ two_digit_text (day d).

End Strftime.

(** [now] is the day [datetime.now()] gives when the module is loaded. *)
Definition OUTPUT_FILENAME (now : date) : string :=
  "deepstatemap_data_" +:+ Strftime.strftime_Ymd now +:+ ".geojson".

(** *** [make_api_request] *)

Definition MAX_RETRIES : nat := 3.
Definition RETRY_DELAY : Z := 5.

(** What one attempt ([requests.get], [raise_for_status], [json]) comes
    to: the decoded payload, a [RequestException], or an exception of
    another class. *)
Inductive outcome (A : Type) :=
  | Responded (data : A)
  | RequestException
  | OtherException.
Arguments Responded {A} data.
Arguments RequestException {A}.
Arguments OtherException {A}.

Inductive api_event :=
  | Get
  | LogWarning (attempt : nat)
  | LogRetrying
  | Sleep (seconds : Z)
  | LogAllFailed.

(** how the call ends: a value returned, [sys.exit(status)], an exception
    that is not caught, or the end of the loop (the function returns
    [None]) *)
Inductive api_result (A : Type) :=
  | Returned (data : A)
  | SystemExit (status : Z)
  | Propagated
  | ReturnedNone.
Arguments Returned {A} data.
Arguments SystemExit {A} status.
Arguments Propagated {A}.
Arguments ReturnedNone {A}.

(** the loop [for attempt in range(MAX_RETRIES)]; [server attempt] is what
    the request of that attempt comes to *)
Fixpoint request_loop {A} (server : nat → outcome A) (attempts : list nat)
    (trace : list api_event) : api_result A * list api_event :=
  match attempts with
  | [] => (ReturnedNone, trace)
  | attempt :: later =>
      match server attempt with
      | Responded data => (Returned data, trace ++ [Get])
      | OtherException => (Propagated, trace ++ [Get])
      | RequestException =>
          let trace := trace ++ [Get; LogWarning (attempt + 1)] in
          if attempt <? MAX_RETRIES - 1
          then request_loop server later (trace ++ [LogRetrying; Sleep RETRY_DELAY])
          else (SystemExit 1, trace ++ [LogAllFailed])
      end
  end.

Definition make_api_request {A} (server : nat → outcome A)
  : api_result A * list api_event :=
  request_loop server (seq 0 MAX_RETRIES) [].

(** the requests a trace holds, and the seconds it sleeps *)
Fixpoint requests_made (trace : list api_event) : nat :=
  match trace with
  | [] => 0
  | Get :: trace' => S (requests_made trace')
  | _ :: trace' => requests_made trace'
  end.

Fixpoint seconds_slept (trace : list api_event) : Z :=
  match trace with
  | [] => 0
  | Sleep s :: trace' => s + seconds_slept trace'
  | _ :: trace' => seconds_slept trace'
  end.

(** *** [main] *)

Section Main.
Context `{Shapely}.

(** [to_file gdf] is the frame [gpd.read_file] gives for the file
    [gdf.to_file(output_path, driver="GeoJSON")] writes. *)
Variable to_file : geometry polygon → geo_frame.

(** how [main] ends *)
Inductive main_exit :=
  | Done
  | Exit (status : Z)
  | Uncaught (e : exn)
  | UncaughtRequest
  | NoPayload
  | NoGeometryColumn.

(** The payload is taken in the shape [process_data] reads,
    [data['map']['features']] with a geometry and a name in each feature.
    The directory of the store exists, and [os.makedirs] with [exist_ok]
    leaves it as it is.  The artifact is written before the aggregation
    runs: were the aggregation to raise, [main] would end with the
    artifact in the directory ([written] below).  On the stores of this
    embedding, whose files can all be read, the aggregation returns.  For a
    payload without features the frame is made of no record; [set_crs] is
    taken to raise on it for want of a geometry column, which is
    geopandas' doing, and the statements on [main] are about payloads with
    a feature. *)
Definition main (now : date) (server : nat → outcome (list raw_feature))
    (st : store) : store * main_exit :=
  match make_api_request server with
  | (Returned raw_data, _) =>
      match process_data raw_data with
      | Raise e => (st, Uncaught e)
      | Ok [] => (st, NoGeometryColumn)
      | Ok processed_data =>
          let gdf := create_geodataframe processed_data in
          let written :=
            {| data_dir := <[OUTPUT_FILENAME now := to_file gdf]> (data_dir st);
               csv_file := csv_file st |} in
          match update_aggregated_csv written with
          | Ok (st', _) => (st', Done)
          | Raise e => (written, Uncaught e)
          end
      end
  | (SystemExit status, _) => (st, Exit status)
  | (Propagated, _) => (st, UncaughtRequest)
  | (ReturnedNone, _) => (st, NoPayload)
  end.

End Main.

(** *** Words for the statements on the aggregation *)

Section AggregationWords.
Context `{Shapely}.

(** the polygons a row of an artifact holds *)
Definition polygon_count (row : geo_row) : nat :=
  match row_geometry row with
  | Polygon _ => 1
  | MultiPolygon geoms => length geoms
  | OtherGeometry => 0
  end.

(** the rows an entry of the directory adds to a table that covers
    [dates]: those of a [.geojson] entry whose name carries a date the
    table does not cover *)
Definition contribution (dates : gset date) (entry : string * geo_frame)
  : list agg_row :=
  if PyStr.endswith entry.1 ".geojson" then
    match extract_date_from_filename entry.1 with
    | Ok (Some d) => if decide (d ∈ dates) then [] else processed_rows d entry.2
    | _ => []
    end
  else [].

(** nothing is left to aggregate: every dated artifact the table does not
    cover is without rows *)
Definition settled (st : store) : Prop :=
  ∀ f c d, data_dir st !! f = Some c → PyStr.endswith f ".geojson" = true →
           extract_date_from_filename f = Ok (Some d) →
           d ∉ covered (table st) → processed_rows d c = [].

End AggregationWords.

(** *** Examples for the rest of the script *)

(** a kernel whose union keeps the polygons it is given, as the parts of
    one multipolygon *)
Definition example_union_kernel : Shapely := {|
  float := Z;
  polygon := Z;
  raw_geometry := geometry Z;
  shape_2d := id;
  unary_union := λ gs, MultiPolygon (gs ≫= λ g, match g with
                                                | Polygon p => [p]
                                                | MultiPolygon ps => ps
                                                | OtherGeometry => []
                                                end);
  buffer := λ g _, g;
  eps := 9%Z;
  neg := Z.opp;
  centroid_x := λ p, p;
  centroid_y := λ p, (2 * p)%Z;
  polygon_area := λ p, (p * p)%Z;
  polygon_wkt := λ _, "POLYGON";
|}.

(** a payload of four features, and the same with a label that has no
    delimiter at its end *)
Definition example_payload : list (@raw_feature example_union_kernel) :=
  [ @Build_raw_feature example_union_kernel (Polygon 1%Z) "UA///Occupied";
    @Build_raw_feature example_union_kernel (Polygon 2%Z) "UA/// CADR and CALR ";
    @Build_raw_feature example_union_kernel (MultiPolygon [3; 4]%Z) "UA///Occupied";
    @Build_raw_feature example_union_kernel (Polygon 5%Z) "UA///Unknown status" ].

Definition example_bad_payload : list (@raw_feature example_union_kernel) :=
  example_payload
  ++ [ @Build_raw_feature example_union_kernel (Polygon 6%Z) "no delimiter" ].

(** a server that fails twice and then answers, and one that never answers *)
Definition example_flaky_server
  : nat → outcome (list (@raw_feature example_union_kernel)) :=
  λ attempt, if attempt <? 2 then RequestException else Responded example_payload.

Definition example_dead_server
  : nat → outcome (list (@raw_feature example_union_kernel)) :=
  λ _, RequestException.

(** the file written for a geometry holds that geometry in one row *)
Definition example_to_file (g : geometry Z) : @geo_frame example_union_kernel :=
  @Build_geo_frame example_union_kernel false
    [ @Build_geo_row example_union_kernel g None ].

(** an empty directory without table, and one whose table covers the
    fifth of March 2024 *)
Definition example_new_store : @store example_union_kernel :=
  @Build_store example_union_kernel ∅ None.

Definition example_covered_store : @store example_union_kernel :=
  @Build_store example_union_kernel ∅
    (Some [ @Build_agg_row example_union_kernel (mkdate 2024 3 5) 2%Z 1%Z 1%Z
              "POLYGON" None ]).

(** two artifacts whose names carry the same date, and no table *)
Definition example_twin_store : @store example_kernel :=
  @Build_store example_kernel
    (<[ "deepstatemap_data_20240103.geojson" := example_frame ]>
       {[ "deepstatemap_data_2024013.geojson" := example_frame ]})
    None.

(** * Properties *)

(** ** Strings *)

Module PyStrFacts.
Import PyStr Spec.

Lemma app_cons c (s t : string) : String c s +:+ t = String c (s +:+ t).
Proof. reflexivity. Qed.

Lemma app_nil_l (s : string) : "" +:+ s = s.
Proof. reflexivity. Qed.

Lemma app_nil_r (s : string) : s +:+ "" = s.
Proof. induction s as [|c s IH]; [done|]. by rewrite app_cons, IH. Qed.

Lemma app_assoc (s t u : string) : (s +:+ t) +:+ u = s +:+ t +:+ u.
Proof. induction s as [|c s IH]; [done|]. by rewrite !app_cons, IH. Qed.

Lemma app_length (s t : string) :
  String.length (s +:+ t) = String.length s + String.length t.
Proof. induction s as [|c s IH]; [done|]. rewrite app_cons. simpl. by rewrite IH. Qed.

Lemma length_zero (s : string) : String.length s = 0 → s = "".
Proof. by destruct s. Qed.

Lemma app_inj_length (p p' x x' : string) :
  p +:+ x = p' +:+ x' → String.length p = String.length p' → p = p' ∧ x = x'.
Proof.
  revert p'. induction p as [|c p IH]; intros [|c' p'] Heq Hlen; try done.
  rewrite !app_cons in Heq. injection Heq as -> Heq.
  destruct (IH p' Heq) as [-> ->]; [simpl in Hlen; lia|done].
Qed.

Lemma startswith_app (p q : string) : startswith (p +:+ q) p = true.
Proof.
  induction p as [|c p IH]; [done|].
  rewrite app_cons. simpl. by rewrite Ascii.eqb_refl, IH.
Qed.

Lemma startswith_inv (s p : string) : startswith s p = true → ∃ q, s = p +:+ q.
Proof.
  revert s. induction p as [|c p IH]; intros s Hs.
  - by exists s.
  - destruct s as [|d s]; [done|]. simpl in Hs.
    apply andb_prop in Hs as [Hc Hs]. apply Ascii.eqb_eq in Hc as ->.
    destruct (IH s Hs) as [q ->]. by exists q.
Qed.

Lemma startswith_occurs_at (s sub : string) :
  startswith s sub = true ↔ occurs_at sub 0 s.
Proof.
  split.
  - intros [q ->]%startswith_inv. by exists "", q.
  - intros (p & q & -> & Hp). apply length_zero in Hp as ->.
    rewrite app_nil_l. apply startswith_app.
Qed.

Lemma occurs_at_cons sub j c (s : string) :
  occurs_at sub (S j) (String c s) ↔ occurs_at sub j s.
Proof.
  split.
  - intros (p & q & Heq & Hp). destruct p as [|d p]; [done|].
    rewrite app_cons in Heq. injection Heq as -> ->.
    exists p, q. split; [done|]. by injection Hp.
  - intros (p & q & -> & Hp). exists (String c p), q.
    split; [done|]. simpl. by rewrite Hp.
Qed.

Lemma not_occurs_nil (sub : string) : sub ≠ "" → ¬ occurs sub "".
Proof.
  intros Hsub (i & p & q & Heq & _).
  destruct p; [|by rewrite app_cons in Heq].
  rewrite app_nil_l in Heq. destruct sub; [done|by rewrite app_cons in Heq].
Qed.

Lemma not_occurs_cons sub c (s : string) :
  startswith (String c s) sub = false → ¬ occurs sub s → ¬ occurs sub (String c s).
Proof.
  intros Hstart Hs [[|j] Hj].
  - apply startswith_occurs_at in Hj. congruence.
  - apply occurs_at_cons in Hj. apply Hs. by exists j.
Qed.

Lemma first_at_cons sub j c (s : string) :
  startswith (String c s) sub = false →
  first_at sub j s → first_at sub (S j) (String c s).
Proof.
  intros Hstart [Hocc Hmin]. split; [by apply occurs_at_cons|].
  intros [|k] Hk Hocc'.
  - apply startswith_occurs_at in Hocc'. congruence.
  - apply occurs_at_cons in Hocc'. apply (Hmin k); [lia|done].
Qed.

Lemma first_at_unique sub i j (s : string) :
  first_at sub i s → first_at sub j s → i = j.
Proof.
  intros [Hi Hmi] [Hj Hmj].
  destruct (lt_eq_lt_dec i j) as [[Hlt| ->]|Hlt]; [|done|].
  - by destruct (Hmj i Hlt).
  - by destruct (Hmi j Hlt).
Qed.

(** *** [split] reads the segments *)

Lemma split_from_skip sep cur (p r : string) :
  split_from sep (String.length p) cur (p +:+ r) = split_from sep 0 cur r.
Proof.
  induction p as [|c p IH]; [done|]. rewrite app_cons. simpl. apply IH.
Qed.

Lemma segments_cons_char sep c (s a : string) l :
  startswith (String c s) sep = false →
  segments sep s (a :: l) → segments sep (String c s) (String c a :: l).
Proof.
  intros Hstart Hseg. inversion Hseg as [s0 Hno|a0 r l0 Hfirst Hrest]; subst.
  - apply segments_last. by apply not_occurs_cons.
  - rewrite <- app_cons in *. apply segments_cons; [|done].
    simpl. rewrite app_cons. by apply first_at_cons.
Qed.

Lemma split_from_segments sep (s : string) :
  sep ≠ "" →
  ∃ a l, segments sep s (a :: l)
         ∧ ∀ cur, split_from sep 0 cur s = (cur +:+ a) :: l.
Proof.
  intros Hsep. remember (String.length s) as n eqn:Hn.
  revert s Hn. induction (lt_wf n) as [n _ IH]. intros s ->.
  destruct s as [|c s].
  - exists "", []. split; [by apply segments_last, not_occurs_nil|].
    intros cur. simpl. by rewrite app_nil_r.
  - destruct (startswith (String c s) sep) eqn:Hstart.
    + destruct (startswith_inv _ _ Hstart) as [r Hr].
      destruct sep as [|c0 sep']; [done|].
      rewrite app_cons in Hr. injection Hr as <- ->.
      destruct (IH (String.length r)) with (s := r) as (a & l & Hseg & Hsplit);
        [simpl; rewrite app_length; lia|done|].
      exists "", (a :: l). split.
      * rewrite <- app_cons.
        change (String c sep' +:+ r) with ("" +:+ String c sep' +:+ r).
        apply (segments_cons _ "" r); [|done].
        split; [by exists "", r|]. simpl. lia.
      * intros cur. unfold split_from at 1. fold split_from. rewrite Hstart.
        rewrite app_nil_r. f_equal.
        replace (String.length (String c sep') - 1) with (String.length sep')
          by (simpl; lia).
        by rewrite split_from_skip, Hsplit.
    + destruct (IH (String.length s)) with (s := s) as (a & l & Hseg & Hsplit);
        [simpl; lia|done|].
      exists (String c a), l. split; [by apply segments_cons_char|].
      intros cur. unfold split_from at 1. fold split_from. rewrite Hstart.
      by rewrite Hsplit, app_assoc.
Qed.

Lemma segments_fun sep (s : string) l1 l2 :
  segments sep s l1 → segments sep s l2 → l1 = l2.
Proof.
  intros H1. revert l2.
  induction H1 as [s Hno|a r l Hfirst Hrest IH]; intros l2 H2.
  - inversion H2 as [|a' r' l' [Hocc _] _]; subst; [done|].
    destruct Hno. by eexists.
  - inversion H2 as [s' Hno|a' r' l' Hfirst' Hrest' Heq]; subst.
    + destruct Hno. destruct Hfirst as [Hocc _]. by eexists.
    + rewrite Heq in Hfirst'.
      pose proof (first_at_unique _ _ _ _ Hfirst' Hfirst) as Hlen.
      destruct (app_inj_length _ _ _ _ Heq Hlen) as [-> Hr].
      apply (inj (String.app sep)) in Hr as ->. f_equal. by apply IH.
Qed.

Lemma segments_length sep (s : string) l :
  segments sep s l → occurs sep s ↔ 2 ≤ length l.
Proof.
  intros Hseg. destruct Hseg as [s Hno|a r l [Hocc _] Hrest].
  - simpl. split; [done|lia].
  - split; [|by eexists]. intros _. destruct Hrest; simpl; lia.
Qed.

(** *** [replace] drops the delimiters between the segments *)

Lemma concat_cons (x : string) (l : list string) :
  String.concat "" (x :: l) = x +:+ String.concat "" l.
Proof. destruct l; simpl; [by rewrite app_nil_r|done]. Qed.

Lemma concat_split_from old skip cur (s : string) :
  String.concat "" (split_from old skip cur s) = cur +:+ replace_from old skip s.
Proof.
  revert skip cur. induction s as [|c s IH]; intros skip cur.
  - simpl. by rewrite app_nil_r.
  - destruct skip as [|k]; [|apply IH].
    unfold split_from, replace_from. fold split_from. fold replace_from.
    destruct (startswith (String c s) old).
    + specialize (IH (String.length old - 1) "").
      rewrite app_nil_l in IH. by rewrite <- IH, concat_cons.
    + by rewrite IH, app_assoc.
Qed.

(** *** [strip] *)

Lemma lstrip_spec (s : string) :
  (∃ l, s = l +:+ lstrip s ∧ all_space l = true)
  ∧ ∀ c, first_char (lstrip s) = Some c → isspace c = false.
Proof.
  induction s as [|c s [(l & Hl & Hsp) Hfirst]]; [by split; [exists ""|]|].
  simpl. destruct (isspace c) eqn:Hc.
  - split; [|done]. exists (String c l). rewrite app_cons, <- Hl.
    split; [done|]. simpl. by rewrite Hc, Hsp.
  - split; [by exists ""|]. intros d [= <-]. done.
Qed.

Lemma rstrip_spec (s : string) :
  (∃ r, s = rstrip s +:+ r ∧ all_space r = true)
  ∧ (∀ c, last_char (rstrip s) = Some c → isspace c = false)
  ∧ (∀ c, first_char (rstrip s) = Some c → first_char s = Some c).
Proof.
  induction s as [|c s [(r & Hr & Hsp) [Hlast Hfirst]]]; [by split; [exists ""|]|].
  simpl. destruct (rstrip s) as [|d t] eqn:Ht.
  - rewrite app_nil_l in Hr. subst r. destruct (isspace c) eqn:Hc.
    + split; [|done]. exists (String c s). split; [done|]. simpl. by rewrite Hc, Hsp.
    + split; [by exists s|]. split; [|done]. intros e [= <-]. done.
  - split; [exists r; by rewrite app_cons, <- Hr|]. split; [|done].
    intros e He. apply Hlast. simpl in *. by destruct (last_char t).
Qed.

Lemma strip_spec (s : string) : stripped_of s (strip s).
Proof.
  unfold strip.
  destruct (lstrip_spec s) as [(l & Hl & Hlsp) Hfirst].
  destruct (rstrip_spec (lstrip s)) as [(r & Hr & Hrsp) [Hlast Hkeep]].
  split; [|split; [|done]].
  - exists l, r. by rewrite <- Hr.
  - intros c Hc. by apply Hfirst, Hkeep.
Qed.

End PyStrFacts.

(** ** [strptime] *)

Module DatetimeFacts.
Import PyStr Spec Datetime.
Import PyStrFacts.
Local Open Scope Z_scope.

#[local] Arguments Z.mul : simpl never.
#[local] Arguments Z.add : simpl never.
#[local] Arguments Z.leb : simpl never.
#[local] Arguments Z.eqb : simpl never.

Lemma digit_range c x : digit c = Some x → 0 ≤ x ≤ 9.
Proof.
  unfold digit. destruct (_ && _) eqn:Hc; [|done]. intros [= <-].
  apply andb_prop in Hc as [?%Z.leb_le ?%Z.leb_le]. lia.
Qed.

Lemma digit_space : digit " " = None.
Proof. reflexivity. Qed.

Ltac zbool :=
  repeat match goal with
  | |- context [Z.eqb ?a ?b] => destruct (Z.eqb_spec a b); simpl
  | |- context [Z.leb ?a ?b] => destruct (Z.leb_spec a b); simpl
  end.

Ltac use_digits :=
  repeat match goal with
  | H : digit ?c = Some ?x |- _ =>
      lazymatch goal with
      | _ : 0 ≤ x ≤ 9 |- _ => fail
      | _ => pose proof (digit_range c x H)
      end
  end.

Lemma re_d_two a b r :
  re_d (String a (String b r)) =
  match digit a, digit b with
  | Some x, Some y =>
      if (1 <=? 10 * x + y) && (10 * x + y <=? 31) then
        (10 * x + y, r) :: (if 1 <=? x then [(x, String b r)] else [])
      else if 1 <=? x then [(x, String b r)] else []
  | Some x, None => if 1 <=? x then [(x, String b r)] else []
  | None, Some y => if Ascii.eqb a " " && (1 <=? y) then [(y, r)] else []
  | None, None => []
  end.
Proof.
  unfold re_d, two_digits, one_digit, space_digit.
  destruct (digit a) as [x|] eqn:Ha, (digit b) as [y|] eqn:Hb;
    destruct (Ascii.eqb_spec a " ") as [->|]; try (by rewrite digit_space in Ha);
    use_digits; simpl; rewrite ?Hb; zbool; done || lia.
Qed.

Lemma re_d_one a : re_d (String a "") =
  match digit a with Some x => if 1 <=? x then [(x, "")] else [] | None => [] end.
Proof.
  unfold re_d, two_digits, one_digit, space_digit.
  destruct (digit a) as [x|] eqn:Ha; destruct (Ascii.eqb a " "); simpl; zbool; done.
Qed.

Lemma day_text_length ds d : day_text ds d → (1 ≤ String.length ds ≤ 2)%nat.
Proof. destruct 1; simpl; lia. Qed.

Lemma month_text_length ms m : month_text ms m → (1 ≤ String.length ms ≤ 2)%nat.
Proof. destruct 1; simpl; lia. Qed.

Lemma re_d_full r d : head (re_d r) = Some (d, "") ↔ day_text r d.
Proof.
  split.
  - destruct r as [|a [|b r]]; [done| |].
    + rewrite re_d_one. destruct (digit a) as [x|] eqn:Ha; [|done].
      destruct (Z.leb_spec 1 x); [|done]. intros [= <-]. by constructor.
    + rewrite re_d_two.
      destruct (digit a) as [x|] eqn:Ha, (digit b) as [y|] eqn:Hb;
        destruct (Ascii.eqb_spec a " ") as [->|]; simpl;
        zbool; try done; intros [= <- ->]; by constructor.
  - destruct 1 as [a b x y Ha Hb Hr|a x Ha Hx|a x Ha Hx].
    + rewrite re_d_two, Ha, Hb. zbool; done || lia.
    + rewrite re_d_one, Ha. zbool; done || lia.
    + rewrite re_d_two, digit_space, Ha. simpl. zbool; done || lia.
Qed.

Lemma re_d_short r :
  re_d r ≠ [] → (String.length r ≤ 1)%nat → ∃ d, day_text r d.
Proof.
  destruct r as [|a [|b r]]; [done| |simpl; lia].
  rewrite re_d_one. destruct (digit a) as [x|] eqn:Ha; [|done].
  destruct (Z.leb_spec 1 x); [|done]. intros _ _. exists x. by constructor.
Qed.

Lemma re_m_two a b r :
  re_m (String a (String b r)) =
  match digit a, digit b with
  | Some x, Some y =>
      if (1 <=? 10 * x + y) && (10 * x + y <=? 12) then
        (10 * x + y, r) :: (if 1 <=? x then [(x, String b r)] else [])
      else if 1 <=? x then [(x, String b r)] else []
  | Some x, None => if 1 <=? x then [(x, String b r)] else []
  | None, _ => []
  end.
Proof.
  unfold re_m, two_digits, one_digit.
  destruct (digit a) as [x|] eqn:Ha, (digit b) as [y|] eqn:Hb;
    use_digits; simpl; zbool; done || lia.
Qed.

Lemma re_m_one a : re_m (String a "") =
  match digit a with Some x => if 1 <=? x then [(x, "")] else [] | None => [] end.
Proof.
  unfold re_m, two_digits, one_digit.
  destruct (digit a) as [x|] eqn:Ha; simpl; zbool; done.
Qed.

Section month_day.
Context (y0 : Z).

Let F : Z * string → list (Z * Z * Z * string) :=
  λ '(m, s2), '(d, s3) ← re_d s2; [(y0, m, d, s3)].

Let reading (t ms : string) (m d : Z) : Prop :=
  ∃ ds, t = ms +:+ ds ∧ month_text ms m ∧ day_text ds d.

Lemma head_bind_cons m s L :
  head (((m, s) :: L) ≫= F) =
  match head (re_d s) with
  | Some (d, s3) => Some (y0, m, d, s3)
  | None => head (L ≫= F)
  end.
Proof. simpl. by destruct (re_d s) as [|[d s3] l]. Qed.

Lemma month_one_branch a b r x m d :
  digit a = Some x →
  (∀ m' d', month_text (String a (String b "")) m' → day_text r d' → False) →
  head ((if 1 <=? x then [(x, String b r)] else []) ≫= F) = Some (y0, m, d, "")
  ↔ ∃ ms, reading (String a (String b r)) ms m d
          ∧ ∀ ms' m' d', reading (String a (String b r)) ms' m' d' →
                         (String.length ms' ≤ String.length ms)%nat.
Proof.
  intros Ha Hno2. split.
  - destruct (Z.leb_spec 1 x) as [Hx|Hx]; [|done]. rewrite head_bind_cons.
    destruct (head (re_d (String b r))) as [[d0 s3]|] eqn:Hd; [|done].
    intros [= <- <- ->]. apply re_d_full in Hd.
    exists (String a ""). split; [exists (String b r); by repeat constructor|].
    intros ms' m' d' (ds' & Ht & Hm & Hd').
    destruct Hm as [a' b' x' y' Ha' Hb' Hr|a' x' Ha' Hx']; [|done].
    rewrite !app_cons in Ht. injection Ht as <- <- Ht. rewrite app_nil_l in Ht.
    subst ds'. destruct (Hno2 (10 * x' + y') d'); [by constructor|done].
  - intros (ms & (ds & Ht & Hm & Hd) & _).
    destruct Hm as [a' b' x' y' Ha' Hb' Hr|a' x' Ha' Hx'];
      rewrite !app_cons in Ht; rewrite app_nil_l in Ht.
    + injection Ht as <- <- ->. destruct (Hno2 (10 * x' + y') d); [by constructor|done].
    + injection Ht as <- ->. rewrite Ha in Ha'. injection Ha' as <-.
      destruct (Z.leb_spec 1 x); [|lia]. rewrite head_bind_cons.
      apply re_d_full in Hd. by rewrite Hd.
Qed.

Lemma month_day_full t m d :
  head (re_m t ≫= F) = Some (y0, m, d, "")
  ↔ ∃ ms, reading t ms m d
          ∧ ∀ ms' m' d', reading t ms' m' d' →
                         (String.length ms' ≤ String.length ms)%nat.
Proof.
  destruct t as [|a [|b r]].
  - split; [done|]. intros (ms & (ds & Ht & Hm & _) & _).
    destruct Hm; by rewrite app_cons in Ht.
  - rewrite re_m_one. split.
    + destruct (digit a); [|done]. by destruct (1 <=? z).
    + intros (ms & (ds & Ht & Hm & Hd) & _). apply (f_equal String.length) in Ht.
      rewrite app_length in Ht. apply month_text_length in Hm.
      apply day_text_length in Hd. simpl in Ht. lia.
  - rewrite re_m_two.
    destruct (digit a) as [x|] eqn:Ha; [destruct (digit b) as [y|] eqn:Hb|].
    + destruct ((1 <=? 10 * x + y) && (10 * x + y <=? 12)) eqn:Hrange.
      * apply andb_prop in Hrange as [H1%Z.leb_le H2%Z.leb_le].
        rewrite head_bind_cons.
        destruct (head (re_d r)) as [[d0 s3]|] eqn:Hd.
        -- split.
           ++ intros [= <- <- ->]. apply re_d_full in Hd.
              exists (String a (String b "")).
              split; [exists r; by repeat constructor|].
              intros ms' m' d' (ds' & _ & Hm & _).
              apply month_text_length in Hm. simpl. lia.
           ++ intros (ms & (ds & Ht & Hm & Hd') & Hmax).
              destruct Hm as [a' b' x' y' Ha' Hb' Hr|a' x' Ha' Hx'];
                rewrite !app_cons in Ht; rewrite app_nil_l in Ht.
              ** injection Ht as <- <- ->. rewrite Ha in Ha'. rewrite Hb in Hb'.
                 injection Ha' as <-. injection Hb' as <-.
                 apply re_d_full in Hd'. rewrite Hd in Hd'. by injection Hd' as -> ->.
              ** injection Ht as <- <-.
                 destruct (re_d_short r) as [d' Hd''].
                 { intros Hnil. by rewrite Hnil in Hd. }
                 { apply day_text_length in Hd'. simpl in Hd'. lia. }
                 specialize (Hmax (String a (String b "")) (10 * x + y) d').
                 simpl in Hmax. assert (2 ≤ 1)%nat; [|lia].
                 apply Hmax. exists r. by repeat constructor.
        -- apply month_one_branch; [done|]. intros m' d' _ Hd'.
           apply re_d_full in Hd'. by rewrite Hd in Hd'.
      * apply month_one_branch; [done|]. intros m' d' Hm _.
        inversion Hm as [a' b' x' y' Ha' Hb' Hr|]; subst.
        rewrite Ha in Ha'. rewrite Hb in Hb'. injection Ha' as <-. injection Hb' as <-.
        apply andb_false_iff in Hrange as [?%Z.leb_gt| ?%Z.leb_gt]; lia.
    + apply month_one_branch; [done|]. intros m' d' Hm _.
      inversion Hm; congruence.
    + split; [done|]. intros (ms & (ds & Ht & Hm & _) & _).
      destruct Hm; rewrite !app_cons in Ht; injection Ht as <-; congruence.
Qed.

End month_day.

Lemma re_Y_four c1 c2 c3 c4 t :
  re_Y (String c1 (String c2 (String c3 (String c4 t)))) =
  match digit c1, digit c2, digit c3, digit c4 with
  | Some a, Some b, Some c, Some d => [(100 * (10 * a + b) + (10 * c + d), t)]
  | _, _, _, _ => []
  end.
Proof.
  unfold re_Y, two_digits.
  destruct (digit c1) eqn:H1, (digit c2) eqn:H2, (digit c3) eqn:H3, (digit c4) eqn:H4; simpl; rewrite ?H3, ?H4; done.
Qed.

Lemma re_Y_short s : (String.length s < 4)%nat → re_Y s = [].
Proof.
  unfold re_Y, two_digits.
  destruct s as [|c1 [|c2 [|c3 [|c4 t]]]]; simpl; try done; [| |lia];
    intros _; destruct (digit c1), (digit c2); done.
Qed.

Lemma year_text_inv ys y (t s : string) :
  year_text ys y → s = ys +:+ t →
  ∃ c1 c2 c3 c4 a b c d,
    s = String c1 (String c2 (String c3 (String c4 t)))
    ∧ digit c1 = Some a ∧ digit c2 = Some b ∧ digit c3 = Some c ∧ digit c4 = Some d
    ∧ y = 1000 * a + 100 * b + 10 * c + d.
Proof. destruct 1; intros ->. by eauto 15. Qed.

Lemma reads_as_four c1 c2 c3 c4 t a b c d ms dt :
  digit c1 = Some a → digit c2 = Some b → digit c3 = Some c → digit c4 = Some d →
  reads_as (String c1 (String c2 (String c3 (String c4 t)))) ms dt
  ↔ year dt = 1000 * a + 100 * b + 10 * c + d
    ∧ ∃ ds, t = ms +:+ ds ∧ month_text ms (month dt) ∧ day_text ds (day dt).
Proof.
  intros H1 H2 H3 H4. split.
  - intros (ys & ds & Hs & Hy & Hm & Hd).
    destruct (year_text_inv _ _ _ _ Hy Hs)
      as (? & ? & ? & ? & ? & ? & ? & ? & [= <- <- <- <- Ht] & ? & ? & ? & ? & ->).
    split; [congruence|]. by exists ds.
  - intros (Hy & ds & -> & Hm & Hd).
    exists (String c1 (String c2 (String c3 (String c4 "")))), ds.
    split; [done|]. rewrite Hy. split; [by constructor|done].
Qed.

Lemma is_valid_calendar_day y m d :
  is_valid y m d = true ↔ calendar_day (mkdate y m d).
Proof.
  unfold is_valid, calendar_day. simpl.
  rewrite !andb_true_iff, !Z.leb_le. tauto.
Qed.

Lemma head_year (y0 : Z) (t : string) (y m d : Z) (rest : string) :
  head (re_m t ≫= λ '(m, s2), '(d, s3) ← re_d s2; [(y0, m, d, s3)])
    = Some (y, m, d, rest) → y = y0.
Proof.
  intros Hhead%head_Some_elem_of.
  apply list_elem_of_bind in Hhead as ([m' s2] & Hin & _).
  apply list_elem_of_bind in Hin as ([d' s3] & Hin & _).
  apply list_elem_of_singleton in Hin. congruence.
Qed.

Lemma preferred_four c1 c2 c3 c4 t a b c d dt :
  digit c1 = Some a → digit c2 = Some b → digit c3 = Some c → digit c4 = Some d →
  let y0 := 100 * (10 * a + b) + (10 * c + d) in
  preferred_reading (String c1 (String c2 (String c3 (String c4 t)))) dt
  ↔ year dt = y0
    ∧ head (re_m t ≫= λ '(m, s2), '(d, s3) ← re_d s2; [(y0, m, d, s3)])
      = Some (y0, month dt, day dt, "").
Proof.
  intros H1 H2 H3 H4 y0. rewrite month_day_full. unfold preferred_reading. split.
  - intros (ms & Hread & Hmax).
    apply (reads_as_four _ _ _ _ _ a b c d) in Hread as [Hy Hread]; [|done..].
    split; [unfold y0; lia|]. exists ms. split; [done|].
    intros ms' m' d' Hread'. apply (Hmax ms' (mkdate y0 m' d')).
    apply (reads_as_four _ _ _ _ _ a b c d); [done..|].
    split; [unfold y0; simpl; lia|done].
  - intros (Hy & ms & Hread & Hmax). exists ms. split.
    + apply (reads_as_four _ _ _ _ _ a b c d); [done..|].
      split; [unfold y0 in Hy; lia|done].
    + intros ms' d' [_ Hread']%(reads_as_four _ _ _ _ _ a b c d); [|done..].
      by apply (Hmax ms' (month d') (day d')).
Qed.

(** [strptime] returns a date exactly for the texts that read as a day of
    the calendar, and the date is the preferred reading. *)
Lemma strptime_Ymd_Ok s dt :
  strptime_Ymd s = Ok dt ↔ preferred_reading s dt ∧ calendar_day dt.
Proof.
  unfold strptime_Ymd, re_Ymd.
  destruct (decide (String.length s < 4)%nat) as [Hlen|Hlen].
  { rewrite re_Y_short by done. split; [done|].
    intros [(ms & (ys & ds & Hs & Hy & _) & _) _].
    destruct (year_text_inv _ _ _ _ Hy Hs) as (? & ? & ? & ? & ? & ? & ? & ? & -> & _).
    simpl in Hlen. lia. }
  destruct s as [|c1 [|c2 [|c3 [|c4 t]]]]; try (simpl in Hlen; lia).
  rewrite re_Y_four.
  destruct (digit c1) as [a|] eqn:H1, (digit c2) as [b|] eqn:H2,
           (digit c3) as [c|] eqn:H3, (digit c4) as [d|] eqn:H4;
    try (split; [done|]; intros [(ms & (ys & ds & Hs & Hy & _) & _) _];
         destruct (year_text_inv _ _ _ _ Hy Hs)
           as (? & ? & ? & ? & ? & ? & ? & ? & [= <- <- <- <- _] & ? & ? & ? & ? & _);
         congruence).
  simpl. rewrite List.app_nil_r.
  rewrite (preferred_four _ _ _ _ _ a b c d) by done.
  destruct (head _) as [[[[y m] dd] rest]|] eqn:Hhead;
    [|split; [done|by intros [[_ [=]] _]]].
  pose proof (head_year _ _ _ _ _ _ Hhead) as ->.
  destruct rest as [|e rest]; [|split; [done|by intros [[_ [=]] _]]].
  unfold date_new. destruct (is_valid _ m dd) eqn:Hvalid.
  - split.
    + intros [= <-]. split; [done|]. by apply is_valid_calendar_day.
    + intros [[Hy [= -> ->]] _]. destruct dt; simpl in *. by subst.
  - split; [done|]. intros [[Hy [= -> ->]] Hcal].
    destruct dt; simpl in *; subst.
    apply is_valid_calendar_day in Hcal. congruence.
Qed.

Lemma strptime_Ymd_raises s e : strptime_Ymd s = Raise e → e = ValueError.
Proof.
  unfold strptime_Ymd, date_new.
  destruct (head _) as [[[[y m] d] [|c rest]]|]; [destruct (is_valid y m d)|..]; congruence.
Qed.

End DatetimeFacts.

(** ** The label and the date of a file name *)

Module NameFacts.
Import PyStr Spec PyStrFacts DatetimeFacts.

Lemma replace_del_segments (s old : string) :
  old ≠ "" →
  ∃ segs, segments old s segs ∧ replace_del s old = String.concat "" segs.
Proof.
  intros Hold. destruct (split_from_segments old s Hold) as (a & l & Hseg & Hsplit).
  exists (a :: l). split; [done|].
  rewrite <- (app_nil_l a), <- Hsplit, concat_split_from, app_nil_l.
  by destruct old.
Qed.

Lemma YYYYMMDD_preferred s d :
  YYYYMMDD s d → calendar_day d → preferred_reading s d.
Proof.
  intros Hs (_ & Hm & Hd). destruct Hs; simpl in *.
  eexists (String m1 (String m2 "")). split.
  - eexists (String y1 (String y2 (String y3 (String y4 "")))), (String d1 (String d2 "")).
    split; [done|]. simpl. split; [by constructor|].
    assert (Datetime.days_in_month (1000 * a + 100 * b + 10 * c + d) (10 * x + y) ≤ 31)%Z.
    { unfold Datetime.days_in_month. repeat case_match; lia. }
    split; constructor; try done; lia.
  - intros ms' d' (ys & ds & _ & _ & Hm' & _). apply month_text_length in Hm'.
    simpl. lia.
Qed.

Lemma preferred_YYYYMMDD s d d' :
  YYYYMMDD s d → preferred_reading s d' → d' = d.
Proof.
  intros Hs (ms & (ys & ds & Heq & Hy & Hm & Hd) & _).
  destruct d' as [yy mm dd]. simpl in *.
  destruct Hs. destruct Hy.
  rewrite !app_cons, app_nil_l in Heq. injection Heq as <- <- <- <- Heq.
  assert (String.length ms = 2 ∧ String.length ds = 2) as [Hlm Hld].
  { apply (f_equal String.length) in Heq. rewrite app_length in Heq.
    apply month_text_length in Hm. apply day_text_length in Hd. simpl in Heq. lia. }
  destruct Hm; [|done]. destruct Hd; [| done |].
  - rewrite !app_cons, app_nil_l in Heq. injection Heq as <- <- <- <-. congruence.
  - rewrite !app_cons, app_nil_l in Heq. injection Heq as <- <- -> <-.
    by rewrite digit_space in *.
Qed.

Lemma extract_date_from_filename_total filename :
  ∃ o, extract_date_from_filename filename = Ok o.
Proof.
  unfold extract_date_from_filename.
  destruct (Datetime.strptime_Ymd _) as [d|e] eqn:Hs; [by eexists|].
  apply strptime_Ymd_raises in Hs as ->. by eexists.
Qed.

End NameFacts.

Section Names.
Import PyStr Spec PyStrFacts DatetimeFacts NameFacts.

(** C6.  A raw name that holds the delimiter [///] has at least two
    segments, and [extract_first_part] returns the segment at index 1
    without the white space around it; a name without the delimiter is
    its own single segment, and the call raises [IndexError].  The
    segments of a name are unique. *)
Theorem extract_first_part_segment (name : string) :
  ∃ segs,
    segments "///" name segs
    ∧ (∀ l, segments "///" name l → l = segs)
    ∧ (occurs "///" name →
       ∃ seg t, segs !! 1 = Some seg
                ∧ extract_first_part name 1 = Ok t ∧ stripped_of seg t)
    ∧ (¬ occurs "///" name →
       segs = [name] ∧ extract_first_part name 1 = Raise IndexError).
Proof.
  destruct (split_from_segments "///" name) as (a & l & Hseg & Hsplit); [done|].
  exists (a :: l). split; [done|]. split; [intros l' Hl'; by eapply segments_fun|].
  pose proof (segments_length _ _ _ Hseg) as Hlen.
  assert (Hrun : extract_first_part name 1 =
                 segment ← subscript (a :: l) 1; Ok (strip segment)).
  { unfold extract_first_part, split. by rewrite Hsplit. }
  rewrite Hrun. split.
  - intros Hocc%Hlen. destruct l as [|seg l]; [simpl in Hocc; lia|].
    exists seg, (strip seg). split; [done|]. split; [done|]. apply strip_spec.
  - intros Hno. assert (Hone : a :: l = [name]).
    { eapply segments_fun; [done|]. by apply segments_last. }
    by rewrite Hone.
Qed.

(** C10, as the code has it.  [extract_date_from_filename] never raises.
    The text it parses is the base name without the occurrences of
    [deepstatemap_data_] and then without those of [.geojson], found from
    the left wherever they stand.  It returns a date exactly when that
    text reads as a day of the calendar in the way [strptime] reads
    [%Y%m%d]: four digits for the year, then a month and a day of one or
    two digits each (the day may also be a space and a digit), the longer
    month winning where two readings exist; it returns [None] otherwise.
    On the strict form of eight digits that is the date written, when it
    is a day of the calendar.  A name that holds the two texts elsewhere
    than around the date still yields a date. *)
Theorem extract_date_from_filename_reading :
  (∀ filename, ∃ o, extract_date_from_filename filename = Ok o)
  ∧ (∀ filename, ∃ segs1 segs2,
       segments "deepstatemap_data_" (PosixPath.basename filename) segs1
       ∧ segments ".geojson" (String.concat "" segs1) segs2
       ∧ date_str filename = String.concat "" segs2)
  ∧ (∀ filename d,
       extract_date_from_filename filename = Ok (Some d)
       ↔ preferred_reading (date_str filename) d ∧ calendar_day d)
  ∧ (∀ filename,
       extract_date_from_filename filename = Ok None
       ↔ ¬ ∃ d, preferred_reading (date_str filename) d ∧ calendar_day d)
  ∧ (∀ filename d,
       YYYYMMDD (date_str filename) d →
       (calendar_day d → extract_date_from_filename filename = Ok (Some d))
       ∧ (¬ calendar_day d → extract_date_from_filename filename = Ok None))
  ∧ (∃ filename d,
       startswith (PosixPath.basename filename) "deepstatemap_data_" = false
       ∧ extract_date_from_filename filename = Ok (Some d)).
Proof.
  assert (Hsome : ∀ filename d,
    extract_date_from_filename filename = Ok (Some d)
    ↔ preferred_reading (date_str filename) d ∧ calendar_day d).
  { intros filename d. rewrite <- strptime_Ymd_Ok. unfold extract_date_from_filename.
    destruct (Datetime.strptime_Ymd _) as [d'|[]];
      split; intros [= ?]; by subst. }
  pose proof extract_date_from_filename_total as Htotal.
  assert (Hnone : ∀ filename,
    extract_date_from_filename filename = Ok None
    ↔ ¬ ∃ d, preferred_reading (date_str filename) d ∧ calendar_day d).
  { intros filename. split.
    - intros Hn (d & Hd%Hsome). congruence.
    - intros Hno. destruct (Htotal filename) as [[d|] Ho]; [|done].
      destruct Hno. exists d. by apply Hsome. }
  split; [done|]. split; [|split; [done|split; [done|split]]].
  - intros filename. unfold date_str.
    destruct (replace_del_segments (PosixPath.basename filename) "deepstatemap_data_")
      as (segs1 & Hsegs1 & Heq1); [done|].
    destruct (replace_del_segments (String.concat "" segs1) ".geojson")
      as (segs2 & Hsegs2 & Heq2); [done|].
    exists segs1, segs2. by rewrite Heq1.
  - intros filename d Hstrict. split.
    + intros Hcal. apply Hsome. split; [|done]. by apply YYYYMMDD_preferred.
    + intros Hcal. apply Hnone. intros (d' & Hpref & Hcal').
      by rewrite (preferred_YYYYMMDD _ _ _ Hstrict Hpref) in Hcal'.
  - exists "2024deepstatemap_data_0101.geojson", (mkdate 2024 1 1).
    by vm_compute.
Qed.

(** C10 as stated fails: the text [2024011] is no date of the form
    YYYYMMDD, and the file name still yields the first of January 2024. *)
Lemma extract_date_from_filename_short_month :
  extract_date_from_filename "deepstatemap_data_2024011.geojson"
    = Ok (Some (mkdate 2024 1 1))
  ∧ date_str "deepstatemap_data_2024011.geojson" = "2024011"
  ∧ ¬ ∃ d, YYYYMMDD "2024011" d.
Proof.
  split; [by vm_compute|]. split; [by vm_compute|].
  intros [d Hd]. inversion Hd.
Qed.

End Names.

(** ** The aggregation *)

Module AggregationFacts.
Import PyStr Spec PyStrFacts DatetimeFacts NameFacts.

Lemma after_last_slash_app (p file : string) :
  PosixPath.after_last_slash (p +:+ String "/" file)
  = Some (default file (PosixPath.after_last_slash file)).
Proof.
  induction p as [|c p IH].
  - rewrite app_nil_l. simpl. by destruct (PosixPath.after_last_slash file).
  - rewrite app_cons. simpl. by rewrite IH.
Qed.

Lemma basename_join (file : string) :
  PosixPath.basename (PosixPath.join OUTPUT_DIR file) = PosixPath.basename file.
Proof.
  unfold PosixPath.join. destruct (startswith file "/"); [done|].
  change (String.eqb OUTPUT_DIR "" || endswith OUTPUT_DIR "/") with false.
  cbv iota. unfold PosixPath.basename.
  change ("/" +:+ file) with (String "/" file).
  by rewrite after_last_slash_app.
Qed.

Lemma extract_date_join (file : string) :
  extract_date_from_filename (PosixPath.join OUTPUT_DIR file)
  = extract_date_from_filename file.
Proof. unfold extract_date_from_filename, date_str. by rewrite basename_join. Qed.

Lemma elem_of_concat {A} (x : A) (ls : list (list A)) :
  x ∈ concat ls ↔ ∃ l, l ∈ ls ∧ x ∈ l.
Proof.
  rewrite list_elem_of_In, in_concat. split.
  - intros (l & Hl & Hx). exists l. by rewrite !list_elem_of_In.
  - intros (l & Hl & Hx). exists l. by rewrite <- !list_elem_of_In.
Qed.


Lemma elem_of_sorted_by_name {A} (d : gmap string A) (f : string) (c : A) :
  (f, c) ∈ sorted_by_name (map_to_list d) ↔ d !! f = Some c.
Proof.
  unfold sorted_by_name. rewrite merge_sort_Permutation. apply elem_of_map_to_list.
Qed.

Section scan.
Context `{Shapely}.

Lemma process_row_date d named row r :
  r ∈ process_row d named row → date_of r = d.
Proof.
  unfold process_row. destruct (row_geometry row) as [p|geoms|].
  - by intros (p' & -> & _)%list_elem_of_fmap.
  - by intros (p' & -> & _)%list_elem_of_fmap.
  - by intros ?%elem_of_nil.
Qed.

Lemma processed_rows_date d c r : r ∈ processed_rows d c → date_of r = d.
Proof. intros (row & Hr & _)%list_elem_of_bind. by eapply process_row_date. Qed.

Lemma process_geojson_Some filepath d c :
  extract_date_from_filename filepath = Ok (Some d) →
  process_geojson filepath c = Ok (processed_rows d c, [ReadFile filepath]).
Proof. intros Hd. unfold process_geojson. by rewrite Hd. Qed.

Lemma process_geojson_None filepath c :
  extract_date_from_filename filepath = Ok None →
  process_geojson filepath c = Ok ([], []).
Proof. intros Hd. unfold process_geojson. by rewrite Hd. Qed.

Lemma scan_file_step dates dfs tr f c :
  ∃ new evs, scan_file dates (dfs, tr) (f, c) = Ok (dfs ++ new, tr ++ evs)
             ∧ scan_step dates f c new evs.
Proof.
  unfold scan_file. destruct (endswith f ".geojson") eqn:Hext.
  - destruct (extract_date_from_filename_total f) as [[d|] Hd]; rewrite Hd; simpl.
    + case_bool_decide as Hin.
      * exists [], [LogSkipping f]. rewrite List.app_nil_r. split; [done|].
        by apply (step_skip _ _ _ d).
      * rewrite (process_geojson_Some _ d) by (by rewrite extract_date_join). simpl.
        destruct (processed_rows d c) as [|r rows] eqn:Hrows.
        -- eexists [], _. rewrite List.app_nil_r. split; [done|].
           by apply (step_empty _ _ _ d).
        -- eexists [_], _. split; [done|]. rewrite <- Hrows.
           apply (step_rows _ _ _ d); [done..|]. by rewrite Hrows.
    + rewrite process_geojson_None by (by rewrite extract_date_join). simpl.
      exists [], [LogProcessing f]. rewrite List.app_nil_r. split; [done|].
      by apply step_no_date.
  - exists [], []. rewrite !List.app_nil_r. split; [done|]. by apply step_other.
Qed.

Lemma for_each_scan_file dates l dfs tr :
  ∃ new evs, for_each (scan_file dates) (dfs, tr) l = Ok (dfs ++ new, tr ++ evs)
             ∧ scan_steps dates l new evs.
Proof.
  revert dfs tr. induction l as [|[f c] l IH]; intros dfs tr.
  - exists [], []. rewrite !List.app_nil_r. split; [done|constructor].
  - destruct (scan_file_step dates dfs tr f c) as (new & evs & Hscan & Hstep).
    destruct (IH (dfs ++ new) (tr ++ evs)) as (new' & evs' & Hloop & Hsteps).
    exists (new ++ new'), (evs ++ evs'). split; [|by constructor].
    change (for_each (scan_file dates) (dfs, tr) ((f, c) :: l))
      with (s' ← scan_file dates (dfs, tr) (f, c); for_each (scan_file dates) s' l).
    rewrite Hscan. simpl. by rewrite Hloop, <- !(assoc_L (++)).
Qed.

(** every frame kept comes from a file of the listing whose date the table
    does not cover, and holds a row *)
Lemma scan_steps_frames dates l new evs df :
  scan_steps dates l new evs → df ∈ new →
  df ≠ [] ∧ ∃ f c d, (f, c) ∈ l ∧ endswith f ".geojson" = true
                     ∧ extract_date_from_filename f = Ok (Some d)
                     ∧ (d ∉ dates) ∧ df = processed_rows d c.
Proof.
  induction 1 as [|f c l new evs new' evs' Hstep _ IH]; [by intros ?%elem_of_nil|].
  intros [Hdf|Hdf]%elem_of_app.
  - destruct Hstep; try by apply elem_of_nil in Hdf.
    apply list_elem_of_singleton in Hdf as ->. split; [done|].
    eexists f, c, d. split; [left|done].
  - destruct (IH Hdf) as (Hne & f' & c' & d & Hin & Hrest). split; [done|].
    exists f', c', d. split; [by right|done].
Qed.

(** every file of the listing whose date the table does not cover is read,
    and its rows, when there are some, are kept *)
Lemma scan_steps_reads dates l new evs f c d :
  scan_steps dates l new evs → (f, c) ∈ l →
  endswith f ".geojson" = true →
  extract_date_from_filename f = Ok (Some d) → d ∉ dates →
  LogProcessing f ∈ evs
  ∧ ReadFile (PosixPath.join OUTPUT_DIR f) ∈ evs
  ∧ (processed_rows d c ≠ [] → processed_rows d c ∈ new).
Proof.
  intros Hsteps Hin Hext Hd Hnew.
  induction Hsteps as [|f' c' l new evs new' evs' Hstep _ IH];
    [by apply elem_of_nil in Hin|].
  rewrite !elem_of_app.
  apply elem_of_cons in Hin as [[= <- <-]|Hin].
  - destruct Hstep as [?|d' ? Hd' ?|? Hd'|d' ? Hd' ? Hrows|d' ? Hd' ? Hrows];
      try congruence; rewrite Hd in Hd'; injection Hd' as <-; try done.
    + split; [left; by left|]. split; [left; right; by left|done].
    + split; [left; by left|]. split; [left; right; by left|].
      intros _. left. by left.
  - destruct (IH Hin) as (H1 & H2 & H3). auto.
Qed.

(** the loop reads only files whose date the table does not cover, and
    writes nothing *)
Lemma scan_steps_events dates l new evs e :
  scan_steps dates l new evs → e ∈ evs →
  (∃ f, e = LogSkipping f) ∨ (∃ f, e = LogProcessing f)
  ∨ ∃ f c d, e = ReadFile (PosixPath.join OUTPUT_DIR f) ∧ (f, c) ∈ l
             ∧ extract_date_from_filename f = Ok (Some d) ∧ (d ∉ dates).
Proof.
  induction 1 as [|f c l new evs new' evs' Hstep _ IH]; [by intros ?%elem_of_nil|].
  intros [He|He]%elem_of_app.
  - destruct Hstep; repeat (apply elem_of_cons in He as [->|He]);
      try (by apply elem_of_nil in He); eauto;
      right; right; exists f, c, d; (split; [done|]); (split; [by left|done]).
  - destruct (IH He) as [?|[?|(f' & c' & d & -> & Hin & Hrest)]]; eauto.
    right. right. exists f', c', d. split; [done|]. split; [by right|done].
Qed.


Lemma read_table_table (st : store) :
  read_table st = (table st, (read_table st).2).
Proof. unfold read_table, table. by destruct (csv_file st). Qed.

(** the table is the one file a run opens before its loop, when it is
    there *)
Lemma read_table_events (st : store) e :
  e ∈ (read_table st).2 ↔ e = ReadCsv CSV_PATH ∧ is_Some (csv_file st).
Proof.
  unfold read_table. destruct (csv_file st) as [rows|]; simpl.
  - rewrite list_elem_of_singleton. split; [by intros ->|by intros [-> _]].
  - split; [by intros ?%elem_of_nil|]. by intros [_ [? [=]]].
Qed.

(** one run, by the frames its loop kept *)
Lemma update_aggregated_csv_run (st : store) :
  ∃ new evs,
    scan_steps (covered (table st)) (sorted_by_name (listdir (data_dir st))) new evs
    ∧ update_aggregated_csv st =
      Ok (match new with
          | [] => (st, (read_table st).2
                       ++ evs ++ [match csv_file st with
                                  | None => LogNoInitialData
                                  | Some _ => LogNoNewData
                                  end])
          | _ =>
              let combined_df := match table st with
                                 | [] => concat new
                                 | _ => table st ++ concat new
                                 end in
              ({| data_dir := data_dir st; csv_file := Some combined_df |},
               (read_table st).2 ++ evs ++ [WriteCsv combined_df; LogUpdated])
          end).
Proof.
  destruct (for_each_scan_file (covered (table st))
              (sorted_by_name (listdir (data_dir st))) [] (read_table st).2)
    as (new & evs & Hloop & Hsteps).
  exists new, evs. split; [done|].
  unfold update_aggregated_csv. rewrite read_table_table.
  unfold covered in Hloop. rewrite Hloop. simpl.
  destruct new; simpl; by rewrite <- (assoc_L (++)).
Qed.

End scan.

End AggregationFacts.

Section Aggregation.
Context `{Shapely}.
Import PyStr AggregationFacts.

Lemma covered_app (rows new : list agg_row) d :
  d ∈ covered (rows ++ new) ↔ d ∈ covered rows ∨ d ∈ covered new.
Proof.
  unfold covered. rewrite !elem_of_list_to_set, fmap_app, elem_of_app. done.
Qed.

Lemma covered_row (rows : list agg_row) r : r ∈ rows → date_of r ∈ covered rows.
Proof.
  intros Hr. unfold covered. rewrite elem_of_list_to_set, list_elem_of_fmap. eauto.
Qed.

Lemma covered_inv (rows : list agg_row) d :
  d ∈ covered rows → ∃ r, r ∈ rows ∧ date_of r = d.
Proof.
  unfold covered. rewrite elem_of_list_to_set, list_elem_of_fmap.
  intros (r & -> & Hr). eauto.
Qed.

(** the table after a run: the rows it had, then the rows of the frames
    kept, each dated by a file the table did not cover *)
Lemma update_aggregated_csv_appends (st : store) :
  csv_file st ≠ Some [] →
  ∃ st' trace new evs,
    update_aggregated_csv st = Ok (st', trace)
    ∧ scan_steps (covered (table st)) (sorted_by_name (listdir (data_dir st))) new evs
    ∧ data_dir st' = data_dir st
    ∧ table st' = table st ++ concat new
    ∧ csv_file st' ≠ Some []
    ∧ (new = [] → st' = st)
    ∧ (∃ final, trace = (read_table st).2 ++ evs ++ final
                ∧ ∀ e, e ∈ final → ∀ p, e ≠ ReadFile p ∧ e ≠ ReadCsv p).
Proof.
  intros Hcsv. destruct (update_aggregated_csv_run st) as (new & evs & Hsteps & Hrun).
  destruct new as [|df new].
  - exists st, ((read_table st).2
                ++ evs ++ [match csv_file st with
                           | None => LogNoInitialData
                           | Some _ => LogNoNewData
                           end]), [], evs.
    rewrite List.app_nil_r. repeat split; try done.
    eexists. split; [done|]. intros e ->%list_elem_of_singleton p.
    by destruct (csv_file st).
  - eexists _, _, (df :: new), evs. split; [exact Hrun|].
    destruct (scan_steps_frames _ _ _ _ df Hsteps) as [Hne _]; [by left|].
    repeat split; try done.
    + unfold table at 1. simpl. by destruct (table st).
    + simpl. destruct (table st); simpl; [|done].
      destruct df; [done|]. simpl. done.
    + eexists. split; [done|].
      intros e [->|[->|[]%elem_of_nil]%elem_of_cons]%elem_of_cons p; done.
Qed.


(** C2.  A second run on the same directory finds nothing new: it ends in
    the state the first run left, writes no table, and reports "no new
    data" (or, when there is still no table, that there was nothing to
    start one). *)
Theorem second_run_is_noop (st : store) :
  csv_file st ≠ Some [] →
  ∃ st1 trace1 trace2,
    update_aggregated_csv st = Ok (st1, trace1)
    ∧ data_dir st1 = data_dir st
    ∧ update_aggregated_csv st1 = Ok (st1, trace2)
    ∧ (∀ rows, WriteCsv rows ∉ trace2)
    ∧ last trace2 = Some (match csv_file st1 with
                          | None => LogNoInitialData
                          | Some _ => LogNoNewData
                          end).
Proof.
  intros Hcsv.
  destruct (update_aggregated_csv_appends st Hcsv)
    as (st1 & trace1 & new1 & evs1 & Hrun1 & Hsteps1 & Hdir & Htable & Hcsv1 & _ & _).
  destruct (update_aggregated_csv_run st1) as (new2 & evs2 & Hsteps2 & Hrun2).
  assert (Hnone : new2 = []).
  { apply elem_of_nil_inv. intros df Hdf.
    destruct (scan_steps_frames _ _ _ _ df Hsteps2 Hdf)
      as (Hne & f & c & d & Hin & Hext & Hd & Hcov & ->).
    rewrite Hdir in Hin. apply Hcov. rewrite Htable. apply covered_app.
    destruct (decide (d ∈ covered (table st))) as [|Hcov0]; [by left|right].
    destruct (scan_steps_reads _ _ _ _ f c d Hsteps1 Hin Hext Hd Hcov0)
      as (_ & _ & Hkept).
    destruct (processed_rows d c) as [|r rows] eqn:Hrows; [done|].
    rewrite <- (processed_rows_date d c r) by (rewrite Hrows; by left).
    apply covered_row, elem_of_concat. eexists. split; [by apply Hkept|by left]. }
  subst new2. eexists st1, trace1, _. split; [done|]. split; [done|].
  split; [exact Hrun2|]. split; [|by rewrite !(assoc_L (++)), last_snoc].
  intros rows [Hin|[Hin|Hin]%elem_of_app]%elem_of_app.
  - by apply read_table_events in Hin as [[=] _].
  - by destruct (scan_steps_events _ _ _ _ _ Hsteps2 Hin)
      as [[f [=]]|[[f [=]]|(f & c & d & [=] & _)]].
  - apply list_elem_of_singleton in Hin. by destruct (csv_file st1).
Qed.

(** C9, as the code has it.  An artifact dated [D] whose processing
    yields no row, in a directory where no artifact dated [D] yields one
    and with a table that does not cover [D], is read and processed by
    every run, however many there are, and the table never comes to cover
    [D].  The two conditions are needed: the table covers [D] as soon as
    any artifact dated [D] has given a row, and the artifact without rows
    is skipped from then on. *)
Theorem empty_artifact_is_reprocessed
    (st : store) (file : string) (content : geo_frame) (D : date) (n : nat) :
  csv_file st ≠ Some [] →
  data_dir st !! file = Some content →
  endswith file ".geojson" = true →
  extract_date_from_filename file = Ok (Some D) →
  D ∉ covered (table st) →
  (∀ f c, data_dir st !! f = Some c → endswith f ".geojson" = true →
          extract_date_from_filename f = Ok (Some D) → processed_rows D c = []) →
  ∃ st' traces,
    rerun n st = Ok (st', traces)
    ∧ length traces = n
    ∧ data_dir st' = data_dir st
    ∧ (D ∉ covered (table st'))
    ∧ Forall (λ trace, LogProcessing file ∈ trace
                       ∧ ReadFile (PosixPath.join OUTPUT_DIR file) ∈ trace) traces.
Proof.
  intros Hcsv Hfile Hext Hdate. revert st Hcsv Hfile.
  induction n as [|n IH]; intros st Hcsv Hfile Hcov Hempty.
  { exists st, []. by repeat split. }
  destruct (update_aggregated_csv_appends st Hcsv)
    as (st1 & trace & new & evs & Hrun & Hsteps & Hdir & Htable & Hcsv1 & _
        & final & -> & _).
  assert (Hcov1 : D ∉ covered (table st1)).
  { rewrite Htable. intros [Hin|Hin]%covered_app; [done|].
    apply covered_inv in Hin as (r & (df & Hdf & Hr)%elem_of_concat & Hdr).
    destruct (scan_steps_frames _ _ _ _ df Hsteps Hdf)
      as (_ & f & c & d & Hin & Hext' & Hd & _ & ->).
    rewrite (processed_rows_date _ _ _ Hr) in Hdr. subst d.
    apply elem_of_sorted_by_name in Hin.
    rewrite (Hempty f c Hin Hext' Hd) in Hr. by apply elem_of_nil in Hr. }
  destruct (IH st1) as (st' & traces & Hrerun & Hlen & Hdir' & Hcov' & Hall);
    [done|by rewrite Hdir|done|by rewrite Hdir|].
  exists st', (((read_table st).2 ++ evs ++ final) :: traces).
  split; [simpl; by rewrite Hrun; simpl; rewrite Hrerun|].
  split; [simpl; by rewrite Hlen|]. split; [by rewrite Hdir'|]. split; [done|].
  constructor; [|done].
  destruct (scan_steps_reads _ _ _ _ file content D Hsteps) as (Hlog & Hread & _);
    [by apply elem_of_sorted_by_name|done..|].
  rewrite !elem_of_app. auto.
Qed.

(** C3.  A row of an artifact whose geometry is a multipolygon of [N]
    polygons gives [N] rows of the table, in the order of the polygons and
    between the rows of the artifact's other rows; each carries the date
    of the file name, the centroid ([x] as longitude, [y] as latitude),
    the area and the WKT text of its polygon. *)
Theorem process_geojson_multipolygon
    (filepath : string) (date : date) (content : geo_frame)
    (pre post : list geo_row) (row : geo_row) (geoms : list polygon) :
  extract_date_from_filename filepath = Ok (Some date) →
  iterrows content = pre ++ row :: post →
  row_geometry row = MultiPolygon geoms →
  ∃ rows,
    process_geojson filepath content
    = Ok ((pre ≫= process_row date (has_name_column content))
          ++ rows
          ++ (post ≫= process_row date (has_name_column content)),
          [ReadFile filepath])
    ∧ length rows = length geoms
    ∧ ∀ i p, geoms !! i = Some p →
        rows !! i = Some {| date_of := date;
                            centroid_lat := centroid_y p;
                            centroid_lon := centroid_x p;
                            area := polygon_area p;
                            geometry_wkt := polygon_wkt p;
                            name_value := if has_name_column content
                                          then Some (row_name row) else None |}.
Proof.
  intros Hdate Hrows Hgeom.
  exists (row_data date (has_name_column content) row <$> geoms).
  split; [|split].
  - rewrite (process_geojson_Some _ date) by done. unfold processed_rows.
    rewrite Hrows, bind_app, bind_cons. unfold process_row at 2. by rewrite Hgeom.
  - by rewrite length_fmap.
  - intros i p Hp. by rewrite list_lookup_fmap, Hp.
Qed.

(** C4.  The Filter and Merger keeps exactly the eligible features, a
    single polygon named by one of the three categories, in their order;
    a multipolygon is never kept, whatever its name; and the geometries
    of the features kept are what the union is taken of. *)
Theorem filtered_gdf_exact :
  (∀ geo_list f, f ∈ filtered_gdf geo_list ↔ f ∈ geo_list ∧ eligible f)
  ∧ filtered_gdf [] = []
  ∧ (∀ f l, eligible f → filtered_gdf (f :: l) = f :: filtered_gdf l)
  ∧ (∀ f l, ¬ eligible f → filtered_gdf (f :: l) = filtered_gdf l)
  ∧ (∀ geo_list f geoms, geom f = MultiPolygon geoms → f ∉ filtered_gdf geo_list)
  ∧ (∀ geo_list,
       geo_list ≠ [] →
       create_geodataframe geo_list
       = buffer (buffer (unary_union (geom <$> filtered_gdf geo_list)) eps) (neg eps))
  ∧ (∀ p1 p2 p3 geoms,
       filtered_gdf [ {| name := "CADR and CALR"; geom := Polygon p1 |};
                      {| name := "Occupied"; geom := Polygon p2 |};
                      {| name := "Other"; geom := Polygon p3 |};
                      {| name := "Occupied"; geom := MultiPolygon geoms |} ]
       = [ {| name := "CADR and CALR"; geom := Polygon p1 |};
           {| name := "Occupied"; geom := Polygon p2 |} ]).
Proof.
  assert (Hkeep : ∀ f,
    (is_Polygon (geom f) = true
     ∧ isin (name f) ["CADR and CALR"; "Occupied"; "Occupied Crimea"] = true)
    ↔ eligible f).
  { intros f. unfold eligible, isin. rewrite bool_decide_eq_true.
    rewrite !elem_of_cons, elem_of_nil.
    destruct (geom f) as [p|gs|]; simpl; split.
    - intros [_ Hn]. split; [by eexists|]. tauto.
    - intros [_ Hn]. split; [done|]. tauto.
    - by intros [? _].
    - by intros [[p ?] _].
    - by intros [? _].
    - by intros [[p ?] _]. }
  assert (Hin : ∀ geo_list f, f ∈ filtered_gdf geo_list ↔ f ∈ geo_list ∧ eligible f).
  { intros geo_list f. unfold filtered_gdf.
    rewrite !list_elem_of_filter, <- Hkeep. tauto. }
  split; [done|]. split; [done|]. split; [|split; [|split; [|split]]].
  - intros f l [Hp Hn]%Hkeep. unfold filtered_gdf.
    by rewrite (filter_cons_True _ f l), filter_cons_True.
  - intros f l Hno. unfold filtered_gdf. rewrite (filter_cons _ f l).
    destruct (decide (is_Polygon (geom f) = true)) as [Hp|Hp]; [|done].
    rewrite filter_cons. case_decide as Hn; [|done].
    destruct Hno. by apply Hkeep.
  - intros geo_list f geoms Hf [_ [[p Hp] _]]%Hin. congruence.
  - done.
  - intros p1 p2 p3 geoms. reflexivity.
Qed.

End Aggregation.

(** ** The theorems on the examples *)

Section Examples.
Import Spec AggregationFacts.


(** two runs on [example_growing_store]: the first reads the artifact of
    the second of January 2024 and writes the table, one row grown to
    five; the second writes nothing and reports that there is no new
    data *)
Lemma second_run_is_noop_witness :
  csv_file example_growing_store ≠ Some []
  ∧ ∃ st1 trace1 trace2,
      update_aggregated_csv example_growing_store = Ok (st1, trace1)
      ∧ WriteCsv (table st1) ∈ trace1
      ∧ length (table example_growing_store) = 1
      ∧ length (table st1) = 5
      ∧ update_aggregated_csv st1 = Ok (st1, trace2)
      ∧ (∀ rows, WriteCsv rows ∉ trace2)
      ∧ last trace2 = Some LogNoNewData.
Proof.
  assert (Hcsv : csv_file example_growing_store ≠ Some []) by discriminate.
  split; [exact Hcsv|].
  destruct (second_run_is_noop example_growing_store Hcsv)
    as (st1 & trace1 & trace2 & Hrun1 & _ & Hrun2 & Hwrite & Hlast).
  exists st1, trace1, trace2.
  pose proof Hrun1 as Hfirst. vm_compute in Hfirst. injection Hfirst as <- <-.
  split; [exact Hrun1|]. split; [repeat constructor|].
  split; [reflexivity|]. split; [reflexivity|].
  split; [exact Hrun2|]. split; [exact Hwrite|exact Hlast].
Defined.

(** the multipolygon of three parts in [example_frame] *)
Lemma process_geojson_multipolygon_witness :
  ∃ rows,
    process_geojson "data/deepstatemap_data_20240101.geojson" example_frame
    = Ok (@Build_agg_row example_kernel (mkdate 2024 1 1) 14%Z 7%Z 49%Z "POLYGON" None
            :: rows,
          [ReadFile "data/deepstatemap_data_20240101.geojson"])
    ∧ length rows = 3.
Proof.
  destruct (process_geojson_multipolygon
              "data/deepstatemap_data_20240101.geojson" (mkdate 2024 1 1)
              example_frame
              [@Build_geo_row example_kernel (Polygon 7%Z) None] []
              (@Build_geo_row example_kernel (MultiPolygon [1; 2; 3]%Z) None)
              [1; 2; 3]%Z)
    as (rows & Hrun & Hlen & _).
  - reflexivity.
  - reflexivity.
  - reflexivity.
  - exists rows. split; [|exact Hlen]. rewrite Hrun. simpl. by rewrite List.app_nil_r.
Defined.

(** three runs on [example_empty_store]: each reads the artifact of the
    second of January 2024 *)
Lemma empty_artifact_is_reprocessed_witness :
  ∃ st' traces,
    rerun 3 example_empty_store = Ok (st', traces)
    ∧ length traces = 3
    ∧ Forall (λ trace, ReadFile "data/deepstatemap_data_20240102.geojson" ∈ trace)
             traces.
Proof.
  destruct (empty_artifact_is_reprocessed example_empty_store
              "deepstatemap_data_20240102.geojson" example_empty_frame
              (mkdate 2024 1 2) 3)
    as (st' & traces & Hrun & Hlen & _ & _ & Hall).
  - discriminate.
  - apply lookup_singleton_eq.
  - reflexivity.
  - reflexivity.
  - apply not_elem_of_empty.
  - intros f c Hfc _ _. simpl in Hfc.
    apply lookup_singleton_Some in Hfc as [<- <-]. reflexivity.
  - exists st', traces. split; [exact Hrun|]. split; [exact Hlen|].
    eapply Forall_impl; [exact Hall|]. by intros trace [_ ?].
Defined.


(** C9 as stated fails.  In [example_shadowed_store] the artifact
    [deepstatemap_data_20240103.geojson] yields no row, and no table
    covers its date.  The first run reads it, and reads the artifact
    [deepstatemap_data_2024013.geojson] of the same date, whose rows it
    writes.  The table covers the date from then on: the second run skips
    the artifact without rows and does not read it. *)
Lemma empty_artifact_skipped_beside_twin :
  extract_date_from_filename "deepstatemap_data_20240103.geojson"
    = Ok (Some (mkdate 2024 1 3))
  ∧ (data_dir example_shadowed_store !! "deepstatemap_data_20240103.geojson"
     = Some example_empty_frame)
  ∧ processed_rows (mkdate 2024 1 3) example_empty_frame = []
  ∧ (mkdate 2024 1 3 ∉ covered (table example_shadowed_store))
  ∧ ∃ st' trace1 trace2,
      rerun 2 example_shadowed_store = Ok (st', [trace1; trace2])
      ∧ ReadFile "data/deepstatemap_data_20240103.geojson" ∈ trace1
      ∧ mkdate 2024 1 3 ∈ covered (table st')
      ∧ LogSkipping "deepstatemap_data_20240103.geojson" ∈ trace2
      ∧ (LogProcessing "deepstatemap_data_20240103.geojson" ∉ trace2)
      ∧ ReadFile "data/deepstatemap_data_20240103.geojson" ∉ trace2.
Proof.
  split; [by vm_compute|]. split; [reflexivity|]. split; [reflexivity|].
  split; [apply not_elem_of_empty|].
  destruct (rerun 2 example_shadowed_store) as [[st' traces]|e] eqn:Hrun;
    vm_compute in Hrun; [|discriminate Hrun].
  injection Hrun as <- <-. eexists _, _, _. split; [reflexivity|].
  split; [repeat constructor|]. split; [apply elem_of_list_to_set; by left|].
  split; [repeat constructor|].
  split; intros Hin; repeat (apply elem_of_cons in Hin as [[=]|Hin]);
    by apply elem_of_nil in Hin.
Qed.

End Examples.

(** * More of the script *)

(** ** Labels *)

Module LabelFacts.
Import PyStr Spec PyStrFacts.

Lemma occurs_app (sub l s r : string) : occurs sub s → occurs sub (l +:+ s +:+ r).
Proof.
  intros (i & p & q & -> & _). exists (String.length (l +:+ p)), (l +:+ p), (q +:+ r).
  split; [|done]. by rewrite !app_assoc.
Qed.

Lemma occurs_refl (s : string) : occurs s s.
Proof. exists 0, "", "". split; [|done]. by rewrite app_nil_l, app_nil_r. Qed.

Lemma segments_parts sep (s : string) l seg :
  sep ≠ "" → segments sep s l → seg ∈ l → ¬ occurs sep seg ∧ occurs seg s.
Proof.
  intros Hsep Hseg. revert seg.
  induction Hseg as [s Hno|a r l [_ Hmin] _ IH]; intros seg Hin.
  - apply list_elem_of_singleton in Hin as ->. split; [done|apply occurs_refl].
  - apply elem_of_cons in Hin as [->|Hin].
    + split.
      * intros (j & p & q & -> & Hj). apply (Hmin j).
        -- rewrite !app_length. destruct sep; [done|]. simpl. lia.
        -- exists p, (q +:+ sep +:+ r). split; [|done]. by rewrite !app_assoc.
      * apply (occurs_app a "" a (sep +:+ r)), occurs_refl.
    + destruct (IH seg Hin) as [Hno Hocc]. split; [done|].
      rewrite <- app_assoc.
      replace r with (r +:+ "") by apply app_nil_r.
      by apply occurs_app.
Qed.

Lemma stripped_of_occurs (sub s t : string) :
  stripped_of s t → occurs sub t → occurs sub s.
Proof. intros [(l & r & -> & _) _] Hocc. by apply occurs_app. Qed.

Lemma occurs_trans (a b c : string) : occurs a b → occurs b c → occurs a c.
Proof. intros Hab (i & p & q & -> & _). by apply occurs_app. Qed.

(** the two ways [extract_first_part] ends *)
Lemma extract_first_part_cases (name : string) :
  (occurs "///" name ∧ ∃ t, extract_first_part name 1 = Ok t)
  ∨ (¬ occurs "///" name ∧ extract_first_part name 1 = Raise IndexError).
Proof.
  destruct (split_from_segments "///" name) as (a & l & Hseg & Hsplit); [done|].
  pose proof (segments_length _ _ _ Hseg) as Hlen.
  unfold extract_first_part, split. rewrite Hsplit.
  destruct l as [|seg l].
  - right. split; [|done]. intros Hocc%Hlen. simpl in Hocc. lia.
  - left. split; [apply Hlen; simpl; lia|by eexists].
Qed.

End LabelFacts.

Section Labels.
Import PyStr Spec PyStrFacts LabelFacts.

(** X1.  The label [extract_first_part] returns is a piece of the raw
    name and holds no delimiter [///]: what follows a second delimiter is
    left out. *)
Theorem extract_first_part_clean (name t : string) :
  extract_first_part name 1 = Ok t →
  occurs t name ∧ ¬ occurs "///" t.
Proof.
  destruct (split_from_segments "///" name) as (a & l & Hseg & Hsplit); [done|].
  unfold extract_first_part, split. rewrite Hsplit.
  destruct l as [|seg l]; [done|]. simpl. intros [= <-].
  destruct (segments_parts "///" name (a :: seg :: l) seg) as [Hno Hpart];
    [done|done|by right; left|].
  pose proof (strip_spec seg) as Hstrip. split.
  - apply (occurs_trans _ seg); [|done].
    destruct Hstrip as [(l' & r' & Heq & _) _]. rewrite Heq at 2.
    apply occurs_app, occurs_refl.
  - intros Hocc. apply Hno. by eapply stripped_of_occurs.
Qed.

Lemma extract_first_part_clean_witness :
  extract_first_part "UA///Occupied ///since 2014" 1 = Ok "Occupied"
  ∧ occurs "Occupied" "UA///Occupied ///since 2014"
  ∧ ¬ occurs "///" "Occupied".
Proof.
  assert (Hrun : extract_first_part "UA///Occupied ///since 2014" 1 = Ok "Occupied")
    by reflexivity.
  split; [exact Hrun|].
  exact (extract_first_part_clean _ _ Hrun).
Defined.

End Labels.

(** ** [process_data] *)

Section ProcessData.
Context `{Shapely}.
Import PyStr Spec PyStrFacts LabelFacts.

Lemma process_data_cons (f : raw_feature) (features : list raw_feature) :
  process_data (f :: features) =
  first_part ← extract_first_part (raw_name f) 1;
  rest ← process_data features;
  Ok ({| name := first_part; geom := shape_2d (raw_geom f) |} :: rest).
Proof.
  unfold process_data. rewrite fmap_cons.
  change (mapM ?g (?x :: ?l)) with (y ← g x; k ← mapM g l; mret (y :: k)).
  cbv beta. simpl name. simpl geom.
  by destruct (extract_first_part (raw_name f) 1).
Qed.

(** X2.  When every raw name holds the delimiter, [process_data] returns
    one feature per raw feature, in order, each with the flattened
    geometry of its raw feature and the label of its raw name. *)
Theorem process_data_labels (features : list raw_feature) :
  Forall (λ f, occurs "///" (raw_name f)) features →
  ∃ geo_list,
    process_data features = Ok geo_list
    ∧ Forall2 (λ f g, geom g = shape_2d (raw_geom f)
                      ∧ extract_first_part (raw_name f) 1 = Ok (name g))
              features geo_list.
Proof.
  induction 1 as [|f features Hf _ (geo_list & Hrun & Hall)].
  - exists []. by split.
  - destruct (extract_first_part_cases (raw_name f)) as [[_ [t Ht]]|[Hno _]]; [|done].
    exists ({| name := t; geom := shape_2d (raw_geom f) |} :: geo_list). split.
    + by rewrite process_data_cons, Ht, Hrun.
    + by constructor.
Qed.

(** X3.  One raw name without the delimiter, anywhere in the payload,
    makes [process_data] raise [IndexError]: no feature list is returned,
    whatever the other features are. *)
Theorem process_data_malformed (features : list raw_feature) :
  Exists (λ f, ¬ occurs "///" (raw_name f)) features →
  process_data features = Raise IndexError.
Proof.
  induction features as [|f features IH]; [by intros ?%Exists_nil|].
  intros Hex. rewrite process_data_cons.
  destruct (extract_first_part_cases (raw_name f)) as [[Hocc [t Ht]]|[_ Hraise]];
    [|by rewrite Hraise].
  rewrite Ht. simpl.
  apply Exists_cons in Hex as [Hno|Hex]; [done|]. by rewrite IH.
Qed.

End ProcessData.

(** ** The name of the artifact *)

Module FilenameFacts.
Import PyStr Spec PyStrFacts DatetimeFacts NameFacts Strftime.
Local Open Scope Z_scope.

Lemma digit_digit_char (n : Z) : 0 ≤ n ≤ 9 → digit (digit_char n) = Some n.
Proof.
  intros Hn.
  assert (n = 0 ∨ n = 1 ∨ n = 2 ∨ n = 3 ∨ n = 4 ∨ n = 5 ∨ n = 6 ∨ n = 7 ∨ n = 8 ∨ n = 9)
    as Hcases by lia.
  by destruct_or!; subst.
Qed.

(** a character that is no digit differs from every digit *)
Lemma digit_differs (c0 c : ascii) x :
  digit c0 = None → digit c = Some x →
  Ascii.eqb c0 c = false ∧ Ascii.eqb c c0 = false.
Proof.
  intros H0 Hc. split; apply Ascii.eqb_neq; intros ->; congruence.
Qed.

Lemma replace_from_drop old (p t : string) :
  replace_from old (String.length p) (p +:+ t) = replace_from old 0 t.
Proof. induction p as [|c p IH]; [done|]. rewrite app_cons. simpl. apply IH. Qed.

Lemma replace_from_prefix old (t : string) :
  old ≠ "" → replace_from old 0 (old +:+ t) = replace_from old 0 t.
Proof.
  destruct old as [|c old]; [done|]. intros _. rewrite app_cons.
  unfold replace_from at 1. fold replace_from.
  rewrite <- app_cons, startswith_app.
  replace (String.length (String c old) - 1)%nat with (String.length old)
    by (simpl; lia).
  apply replace_from_drop.
Qed.

Lemma replace_from_char (o c : ascii) old (s : string) :
  Ascii.eqb o c = false →
  replace_from (String o old) 0 (String c s)
  = String c (replace_from (String o old) 0 s).
Proof. intros Hoc. simpl. by rewrite Hoc. Qed.

Section eight_digits.
Context (c1 c2 c3 c4 c5 c6 c7 c8 : ascii) (x1 x2 x3 x4 x5 x6 x7 x8 : Z).
Context (H1 : digit c1 = Some x1) (H2 : digit c2 = Some x2)
        (H3 : digit c3 = Some x3) (H4 : digit c4 = Some x4)
        (H5 : digit c5 = Some x5) (H6 : digit c6 = Some x6)
        (H7 : digit c7 = Some x7) (H8 : digit c8 = Some x8).

Let stamp : string :=
  String c1 (String c2 (String c3 (String c4
    (String c5 (String c6 (String c7 (String c8 ""))))))).

Ltac no_digit c0 :=
  rewrite ?(proj1 (digit_differs c0 c1 x1 eq_refl H1)),
          ?(proj1 (digit_differs c0 c2 x2 eq_refl H2)),
          ?(proj1 (digit_differs c0 c3 x3 eq_refl H3)),
          ?(proj1 (digit_differs c0 c4 x4 eq_refl H4)),
          ?(proj1 (digit_differs c0 c5 x5 eq_refl H5)),
          ?(proj1 (digit_differs c0 c6 x6 eq_refl H6)),
          ?(proj1 (digit_differs c0 c7 x7 eq_refl H7)),
          ?(proj1 (digit_differs c0 c8 x8 eq_refl H8)),
          ?(proj2 (digit_differs c0 c1 x1 eq_refl H1)),
          ?(proj2 (digit_differs c0 c2 x2 eq_refl H2)),
          ?(proj2 (digit_differs c0 c3 x3 eq_refl H3)),
          ?(proj2 (digit_differs c0 c4 x4 eq_refl H4)),
          ?(proj2 (digit_differs c0 c5 x5 eq_refl H5)),
          ?(proj2 (digit_differs c0 c6 x6 eq_refl H6)),
          ?(proj2 (digit_differs c0 c7 x7 eq_refl H7)),
          ?(proj2 (digit_differs c0 c8 x8 eq_refl H8)).

Lemma stamped_name_basename :
  PosixPath.basename ("deepstatemap_data_" +:+ stamp +:+ ".geojson")
  = "deepstatemap_data_" +:+ stamp +:+ ".geojson".
Proof.
  unfold PosixPath.basename, stamp.
  cbv -[Ascii.eqb]. no_digit "/"%char. reflexivity.
Qed.

Lemma stamped_name_date_str :
  date_str ("deepstatemap_data_" +:+ stamp +:+ ".geojson") = stamp.
Proof.
  unfold date_str. rewrite stamped_name_basename.
  unfold replace_del. rewrite replace_from_prefix by done.
  change (stamp +:+ ".geojson")
    with (String c1 (String c2 (String c3 (String c4
            (String c5 (String c6 (String c7 (String c8 ".geojson")))))))).
  rewrite !(replace_from_char "d")
    by (eapply proj1, digit_differs; [reflexivity|eassumption]).
  change (replace_from "deepstatemap_data_" 0 ".geojson") with ".geojson".
  rewrite !(replace_from_char ".")
    by (eapply proj1, digit_differs; [reflexivity|eassumption]).
  reflexivity.
Qed.

End eight_digits.

Lemma strftime_Ymd_strict (d : date) :
  calendar_day d → 1000 ≤ year d → YYYYMMDD (strftime_Ymd d) d.
Proof.
  destruct d as [y m dd]. unfold calendar_day. simpl. intros (Hy & Hm & Hd) Hy4.
  assert (Datetime.days_in_month y m ≤ 31) as H31.
  { unfold Datetime.days_in_month. repeat case_match; lia. }
  set (text := strftime_Ymd (mkdate y m dd)).
  replace (mkdate y m dd)
    with (mkdate (1000 * (y / 100 / 10) + 100 * (y / 100 mod 10)
                  + 10 * (y mod 100 / 10) + y mod 100 mod 10)
                 (10 * (m / 10) + m mod 10) (10 * (dd / 10) + dd mod 10))
    by (f_equal; Z.div_mod_to_equations; lia).
  subst text. unfold strftime_Ymd, two_digit_text. simpl year. simpl month. simpl day.
  rewrite !app_cons, !app_nil_l.
  apply eight_digits; apply digit_digit_char; Z.div_mod_to_equations; lia.
Qed.

Lemma output_filename_date_str (d : date) :
  calendar_day d → 1000 ≤ year d →
  date_str (OUTPUT_FILENAME d) = strftime_Ymd d.
Proof.
  intros Hcal Hy. pose proof (strftime_Ymd_strict d Hcal Hy) as Hstrict.
  unfold OUTPUT_FILENAME.
  inversion Hstrict as [y1 y2 y3 y4 m1 m2 d1 d2 a b c e x y z w
                          ? ? ? ? ? ? ? ? Hs Hd].
  by eapply stamped_name_date_str.
Qed.

Lemma strptime_strftime (d : date) :
  calendar_day d → 1000 ≤ year d →
  Datetime.strptime_Ymd (strftime_Ymd d) = Ok d.
Proof.
  intros Hcal Hy. apply strptime_Ymd_Ok. split; [|done].
  apply YYYYMMDD_preferred; [by apply strftime_Ymd_strict|done].
Qed.

Lemma output_filename_endswith (d : date) :
  endswith (OUTPUT_FILENAME d) ".geojson" = true.
Proof. reflexivity. Qed.

Lemma output_filename_extract (d : date) :
  calendar_day d → 1000 ≤ year d →
  extract_date_from_filename (OUTPUT_FILENAME d) = Ok (Some d).
Proof.
  intros Hcal Hy. unfold extract_date_from_filename.
  by rewrite output_filename_date_str, strptime_strftime.
Qed.

End FilenameFacts.

Section Filenames.
Import PyStr Spec FilenameFacts AggregationFacts.

(** X4.  The name the script gives the artifact of a day parses back to
    that day, as an entry of the directory and as the path the artifact is
    read from, and it ends in [.geojson]: the aggregation takes the
    artifact for one of the day it was written.  This holds for the days of
    the calendar from the year 1000 on. *)
Theorem output_filename_round_trip (now : date) :
  calendar_day now → (1000 ≤ year now)%Z →
  endswith (OUTPUT_FILENAME now) ".geojson" = true
  ∧ extract_date_from_filename (OUTPUT_FILENAME now) = Ok (Some now)
  ∧ extract_date_from_filename (PosixPath.join OUTPUT_DIR (OUTPUT_FILENAME now))
    = Ok (Some now).
Proof.
  intros Hcal Hy. split; [apply output_filename_endswith|].
  split; [by apply output_filename_extract|].
  rewrite extract_date_join. by apply output_filename_extract.
Qed.

Lemma output_filename_round_trip_witness :
  OUTPUT_FILENAME (mkdate 2024 2 29) = "deepstatemap_data_20240229.geojson"
  ∧ extract_date_from_filename (OUTPUT_FILENAME (mkdate 2024 2 29))
    = Ok (Some (mkdate 2024 2 29)).
Proof.
  split; [reflexivity|].
  apply (output_filename_round_trip (mkdate 2024 2 29)).
  - unfold calendar_day. simpl. lia.
  - simpl. lia.
Defined.

(** X5.  [extract_date_from_filename] looks at the base name only: the
    directories a path goes through, whatever they are called, do not
    change the date. *)
Theorem extract_date_from_filename_basename (directory file : string) :
  extract_date_from_filename (directory +:+ "/" +:+ file)
  = extract_date_from_filename file.
Proof.
  unfold extract_date_from_filename, date_str, PosixPath.basename.
  change ("/" +:+ file) with (String "/" file).
  by rewrite after_last_slash_app.
Qed.

End Filenames.

(** ** More on the aggregation *)

Module RunFacts.
Import PyStr Spec AggregationFacts.

Section run.
Context `{Shapely}.

Lemma process_row_length d named row :
  length (process_row d named row) = polygon_count row.
Proof.
  unfold process_row, polygon_count.
  destruct (row_geometry row); by rewrite ?length_fmap.
Qed.

Lemma process_row_name d named row r :
  r ∈ process_row d named row →
  name_value r = if named then Some (row_name row) else None.
Proof.
  unfold process_row.
  destruct (row_geometry row) as [p|geoms|];
    [intros (p' & -> & _)%list_elem_of_fmap..|intros []%elem_of_nil]; done.
Qed.

Lemma processed_rows_length d c :
  length (processed_rows d c) = sum_list (polygon_count <$> iterrows c).
Proof.
  unfold processed_rows. induction (iterrows c) as [|row rows IH]; [done|].
  rewrite bind_cons, length_app, process_row_length, IH. done.
Qed.

Lemma scan_step_contribution dates f c new evs :
  scan_step dates f c new evs → concat new = contribution dates (f, c).
Proof.
  unfold contribution. simpl.
  destruct 1 as [Hext|d Hext Hd Hin|Hext Hd|d Hext Hd Hin Hrows|d Hext Hd Hin Hrows];
    rewrite Hext; try done; rewrite Hd; try done.
  - by rewrite decide_True.
  - by rewrite decide_False.
  - rewrite decide_False by done. simpl. by rewrite List.app_nil_r.
Qed.

Lemma contribution_processed dates f c d :
  endswith f ".geojson" = true →
  extract_date_from_filename f = Ok (Some d) → d ∉ dates →
  contribution dates (f, c) = processed_rows d c.
Proof.
  intros Hext Hd Hcov. unfold contribution. cbn [fst snd].
  by rewrite Hext, Hd, decide_False.
Qed.

Lemma scan_steps_contribution dates l new evs :
  scan_steps dates l new evs → concat new = l ≫= contribution dates.
Proof.
  induction 1 as [|f c l new evs new' evs' Hstep _ IH]; [done|].
  by rewrite concat_app, bind_cons, (scan_step_contribution _ _ _ _ _ Hstep), IH.
Qed.

(** the events of the loop that are reads *)
Lemma scan_steps_read_inv dates l new evs p :
  scan_steps dates l new evs → ReadFile p ∈ evs →
  ∃ f c d, p = PosixPath.join OUTPUT_DIR f ∧ (f, c) ∈ l
           ∧ endswith f ".geojson" = true
           ∧ extract_date_from_filename f = Ok (Some d) ∧ (d ∉ dates).
Proof.
  induction 1 as [|f c l new evs new' evs' Hstep _ IH]; [by intros ?%elem_of_nil|].
  intros [He|He]%elem_of_app.
  - destruct Hstep; repeat (apply elem_of_cons in He as [[=]|He]);
      try (by apply elem_of_nil in He); subst;
      exists f, c, d; (split; [done|]); (split; [by left|done]).
  - destruct (IH He) as (f' & c' & d & -> & Hin & Hrest).
    exists f', c', d. split; [done|]. split; [by right|done].
Qed.

Lemma sorted_by_name_sorted {A} (l : list (string * A)) :
  StronglySorted (λ a b, String.le a.1 b.1) (sorted_by_name l).
Proof.
  unfold sorted_by_name. apply StronglySorted_merge_sort.
  - intros a b c Hab Hbc. by etrans.
  - intros a b. apply (total String.le).
Qed.

(** a store on which a run finds nothing to add stays as it is *)
Lemma settled_run (st : store) :
  settled st →
  ∃ trace, update_aggregated_csv st = Ok (st, trace)
           ∧ ∀ rows, WriteCsv rows ∉ trace.
Proof.
  intros Hsettled.
  destruct (update_aggregated_csv_run st) as (new & evs & Hsteps & Hrun).
  assert (new = []) as ->.
  { apply elem_of_nil_inv. intros df Hdf.
    destruct (scan_steps_frames _ _ _ _ df Hsteps Hdf)
      as (Hne & f & c & d & Hin%elem_of_sorted_by_name & Hext & Hd & Hcov & ->).
    by apply Hne, (Hsettled f c d). }
  eexists. split; [exact Hrun|].
  intros rows [Hin|[Hin|Hin]%elem_of_app]%elem_of_app.
  - by apply read_table_events in Hin as [[=] _].
  - by destruct (scan_steps_events _ _ _ _ _ Hsteps Hin)
      as [[f [=]]|[[f [=]]|(f & c & d & [=] & _)]].
  - apply list_elem_of_singleton in Hin. by destruct (csv_file st).
Qed.

(** a run leaves nothing to add *)
Lemma run_settles (st st' : store) trace :
  csv_file st ≠ Some [] →
  update_aggregated_csv st = Ok (st', trace) → settled st'.
Proof.
  intros Hcsv Hrun.
  destruct (update_aggregated_csv_appends st Hcsv)
    as (st1 & trace1 & new & evs & Hrun1 & Hsteps & Hdir & Htable & _).
  rewrite Hrun in Hrun1. injection Hrun1 as <- <-.
  intros f c d Hfile Hext Hd Hcov. rewrite Hdir in Hfile.
  rewrite Htable in Hcov.
  destruct (processed_rows d c) as [|r rows] eqn:Hrows; [done|].
  destruct Hcov. apply covered_app.
  destruct (decide (d ∈ covered (table st))) as [|Hcov0]; [by left|right].
  destruct (scan_steps_reads _ _ _ _ f c d Hsteps) as (_ & _ & Hkept);
    [by apply elem_of_sorted_by_name|done..|].
  rewrite <- (processed_rows_date d c r) by (rewrite Hrows; by left).
  apply covered_row, elem_of_concat. eexists. split; [|by left].
  rewrite <- Hrows. apply Hkept. by rewrite Hrows.
Qed.

End run.

End RunFacts.

Section Runs.
Context `{Shapely}.
Import PyStr Spec AggregationFacts RunFacts.

(** X6.  For a file whose name carries a date, [process_geojson] reads the
    file once and returns one row per polygon of the frame (one for a
    polygon, one per part for a multipolygon, none for another geometry);
    every row carries the date of the name, and a name exactly when the
    frame has a [name] column. *)
Theorem process_geojson_rows (filepath : string) (d : date) (content : geo_frame) :
  extract_date_from_filename filepath = Ok (Some d) →
  ∃ rows,
    process_geojson filepath content = Ok (rows, [ReadFile filepath])
    ∧ length rows = sum_list (polygon_count <$> iterrows content)
    ∧ Forall (λ r, date_of r = d) rows
    ∧ Forall (λ r, is_Some (name_value r) ↔ has_name_column content = true) rows.
Proof.
  intros Hd. exists (processed_rows d content).
  split; [by apply process_geojson_Some|]. split; [apply processed_rows_length|].
  split; apply Forall_forall; intros r Hr.
  - by eapply processed_rows_date.
  - apply list_elem_of_bind in Hr as (row & Hr%process_row_name & _). rewrite Hr.
    destruct (has_name_column content); split; done.
Qed.


(** X8.  What a run opens to read.  The table at [CSV_PATH] is read
    exactly when it is there, and it is then the first thing the run does.
    With [gpd.read_file] the run reads exactly the [.geojson] entries of the
    directory whose name carries a date the table does not cover, each
    under its path in the output directory: an entry with another suffix,
    with a name that carries no date, or of a covered date is not opened. *)
Theorem update_aggregated_csv_reads (st st' : store) (trace : list event) :
  update_aggregated_csv st = Ok (st', trace) →
  (∀ p, ReadCsv p ∈ trace ↔ p = CSV_PATH ∧ is_Some (csv_file st))
  ∧ (is_Some (csv_file st) → head trace = Some (ReadCsv CSV_PATH))
  ∧ (∀ p, ReadFile p ∈ trace
          ↔ ∃ f c d, p = PosixPath.join OUTPUT_DIR f
                     ∧ data_dir st !! f = Some c
                     ∧ endswith f ".geojson" = true
                     ∧ extract_date_from_filename f = Ok (Some d)
                     ∧ (d ∉ covered (table st))).
Proof.
  intros Hrun.
  destruct (update_aggregated_csv_run st) as (new & evs & Hsteps & Hrun').
  rewrite Hrun in Hrun'.
  assert (Htrace : ∃ final, trace = (read_table st).2 ++ evs ++ final
                            ∧ ∀ e, e ∈ final → ∀ p, e ≠ ReadFile p ∧ e ≠ ReadCsv p).
  { destruct new; injection Hrun' as _ ->; eexists; (split; [done|]); intros e He p.
    - apply list_elem_of_singleton in He as ->. by destruct (csv_file st).
    - apply elem_of_cons in He as [->|He%list_elem_of_singleton]; [done|by subst]. }
  destruct Htrace as (final & -> & Hfinal).
  split; [|split].
  - intros p. rewrite !elem_of_app, read_table_events. split;
      [|intros [-> ?]; by left].
    intros [[[= ->] ?]|[Hin|Hin]]; [done| |by destruct (Hfinal _ Hin p)].
    by destruct (scan_steps_events _ _ _ _ _ Hsteps Hin)
      as [[f [=]]|[[f [=]]|(f & c & d & [=] & _)]].
  - intros [rows Hrows]. unfold read_table. by rewrite Hrows.
  - intros p. rewrite !elem_of_app, read_table_events. split.
    + intros [[[=] _]|[Hin|Hin]]; [|by destruct (Hfinal _ Hin p)].
      destruct (scan_steps_read_inv _ _ _ _ _ Hsteps Hin)
        as (f & c & d & -> & Hf%elem_of_sorted_by_name & Hrest).
      by exists f, c, d.
    + intros (f & c & d & -> & Hf & Hext & Hd & Hcov). right. left.
      by apply (scan_steps_reads _ _ _ _ f c d Hsteps);
        [apply elem_of_sorted_by_name|..].
Qed.


(** X10.  After one run the store is settled: each further run on the
    same directory returns the same store and writes nothing, however
    often the aggregation is repeated. *)
Theorem rerun_settled (st : store) (n : nat) :
  csv_file st ≠ Some [] →
  ∃ st1 trace traces,
    update_aggregated_csv st = Ok (st1, trace)
    ∧ rerun (S n) st = Ok (st1, trace :: traces)
    ∧ length traces = n
    ∧ Forall (λ t, ∀ rows, WriteCsv rows ∉ t) traces.
Proof.
  intros Hcsv.
  destruct (update_aggregated_csv_appends st Hcsv)
    as (st1 & trace & _ & _ & Hrun & _).
  pose proof (run_settles st st1 trace Hcsv Hrun) as Hsettled.
  assert (Hloop : ∃ traces, rerun n st1 = Ok (st1, traces) ∧ length traces = n
                            ∧ Forall (λ t, ∀ rows, WriteCsv rows ∉ t) traces).
  { induction n as [|n (traces & Hn & Hlen & Hall)]; [by exists []|].
    destruct (settled_run st1 Hsettled) as (t & Ht & Hnow).
    exists (t :: traces). split; [simpl; by rewrite Ht; simpl; rewrite Hn|].
    split; [simpl; by rewrite Hlen|by constructor]. }
  destruct Hloop as (traces & Hn & Hlen & Hall).
  exists st1, trace, traces. split; [done|].
  split; [simpl; by rewrite Hrun; simpl; rewrite Hn|done].
Qed.

(** X11.  Two [.geojson] entries whose names carry dates the table does
    not cover both contribute, the rows of the entry with the smaller name
    first.  The dates may be one and the same: a run compares each date
    with the table it found, not with what it added, so two artifacts of
    one new date both get their rows in. *)
Theorem update_aggregated_csv_name_order
    (st : store) (f1 f2 : string) (c1 c2 : geo_frame) (d1 d2 : date) :
  csv_file st ≠ Some [] →
  String.le f1 f2 → f1 ≠ f2 →
  data_dir st !! f1 = Some c1 → data_dir st !! f2 = Some c2 →
  endswith f1 ".geojson" = true → endswith f2 ".geojson" = true →
  extract_date_from_filename f1 = Ok (Some d1) →
  extract_date_from_filename f2 = Ok (Some d2) →
  d1 ∉ covered (table st) → d2 ∉ covered (table st) →
  ∃ st' trace before between after,
    update_aggregated_csv st = Ok (st', trace)
    ∧ table st' = table st ++ before ++ processed_rows d1 c1 ++ between
                  ++ processed_rows d2 c2 ++ after.
Proof.
  intros Hcsv Hle Hne Hf1 Hf2 Hext1 Hext2 Hd1 Hd2 Hcov1 Hcov2.
  destruct (update_aggregated_csv_appends st Hcsv)
    as (st' & trace & new & evs & Hrun & Hsteps & _ & Htable & _).
  rewrite (scan_steps_contribution _ _ _ _ Hsteps) in Htable.
  pose proof (sorted_by_name_sorted (listdir (data_dir st))) as Hsorted.
  apply elem_of_sorted_by_name in Hf1, Hf2.
  unfold listdir in *.
  set (l := sorted_by_name (map_to_list (data_dir st))) in *.
  apply list_elem_of_split in Hf1 as (l1 & l2 & Hl).
  assert (Hin2 : (f2, c2) ∈ l2).
  { rewrite Hl in Hf2, Hsorted.
    apply elem_of_app in Hf2 as [Hf2|Hf2].
    - assert (String.le f2 f1) as Hge.
      { apply (StronglySorted_app_1_elem_of _ _ _ (f2, c2) (f1, c1) Hsorted);
          [done|by left]. }
      destruct Hne. by apply (anti_symm String.le).
    - apply elem_of_cons in Hf2 as [[= ? ?]|Hf2]; [by destruct Hne|done]. }
  apply list_elem_of_split in Hin2 as (l3 & l4 & ->).
  exists st', trace, (l1 ≫= contribution (covered (table st))),
    (l3 ≫= contribution (covered (table st))),
    (l4 ≫= contribution (covered (table st))).
  split; [done|]. rewrite Htable, Hl.
  rewrite bind_app, bind_cons, bind_app, bind_cons.
  by rewrite (contribution_processed _ f1 c1 d1), (contribution_processed _ f2 c2 d2).
Qed.

End Runs.

(** ** The request *)

Section Request.
Context {A : Type}.
Implicit Types (server : nat → outcome A) (data : A).

(** X12.  [make_api_request] returns the payload of the first attempt
    that succeeds, when the attempts before it raised
    [RequestException]: it has then made one request per attempt, has
    slept [RETRY_DELAY] seconds after each failure, and stops with the
    request that succeeded. *)
Theorem make_api_request_first_success server (k : nat) data :
  k < MAX_RETRIES →
  (∀ j, j < k → server j = RequestException) →
  server k = Responded data →
  ∃ trace,
    make_api_request server = (Returned data, trace)
    ∧ requests_made trace = S k
    ∧ seconds_slept trace = (RETRY_DELAY * Z.of_nat k)%Z
    ∧ last trace = Some Get.
Proof.
  unfold MAX_RETRIES. intros Hk Hfail Hok. unfold make_api_request. simpl.
  destruct k as [|[|[|k]]]; [| | |lia].
  - rewrite Hok. by eexists.
  - rewrite (Hfail 0), Hok by lia. by eexists.
  - rewrite (Hfail 0), (Hfail 1), Hok by lia. by eexists.
Qed.

(** X13.  When all [MAX_RETRIES] attempts raise [RequestException], the
    call ends in [sys.exit(1)] after three requests, three warnings and two
    pauses of [RETRY_DELAY] seconds; it does not pause after the last
    failure. *)
Theorem make_api_request_exhausted server :
  (∀ j, j < MAX_RETRIES → server j = RequestException) →
  make_api_request server
  = (SystemExit 1,
     [Get; LogWarning 1; LogRetrying; Sleep RETRY_DELAY;
      Get; LogWarning 2; LogRetrying; Sleep RETRY_DELAY;
      Get; LogWarning 3; LogAllFailed]).
Proof.
  unfold MAX_RETRIES. intros Hfail. unfold make_api_request. simpl.
  by rewrite (Hfail 0), (Hfail 1), (Hfail 2) by lia.
Qed.

(** X14.  Whatever the server does, [make_api_request] makes at most
    [MAX_RETRIES] requests and sleeps at most
    [RETRY_DELAY * (MAX_RETRIES - 1)] seconds; it never runs off the end of
    its loop (it never returns [None]); it exits only with status 1 and
    only after [MAX_RETRIES] failures; an exception that is no
    [RequestException] is not retried; and a payload it returns is the one
    of the first attempt that did not raise [RequestException]. *)
Theorem make_api_request_bounded server :
  let '(result, trace) := make_api_request server in
  requests_made trace ≤ MAX_RETRIES
  ∧ (0 ≤ seconds_slept trace ≤ RETRY_DELAY * (Z.of_nat MAX_RETRIES - 1))%Z
  ∧ result ≠ ReturnedNone
  ∧ (∀ status, result = SystemExit status →
       status = 1%Z ∧ ∀ j, j < MAX_RETRIES → server j = RequestException)
  ∧ (result = Propagated →
       ∃ k, k < MAX_RETRIES ∧ server k = OtherException
            ∧ requests_made trace = S k
            ∧ ∀ j, j < k → server j = RequestException)
  ∧ (∀ data, result = Returned data →
       ∃ k, k < MAX_RETRIES ∧ server k = Responded data
            ∧ ∀ j, j < k → server j = RequestException).
Proof.
  unfold make_api_request, MAX_RETRIES, RETRY_DELAY. simpl.
  assert (Hlt : ∀ (P : nat → Prop) k, (∀ j, j < k → P j) → P k → ∀ j, j < S k → P j).
  { intros P k Hbelow Hk j Hj. destruct (decide (j = k)) as [->|]; [done|].
    apply Hbelow. lia. }
  assert (H0 : ∀ (P : nat → Prop) j, j < 0 → P j) by (intros; lia).
  destruct (server 0) as [d0| |] eqn:E0; simpl.
  { split_and!; try done; try lia.
    intros data [= <-]. exists 0. split_and!; [lia|done|apply H0]. }
  2: { split_and!; try done; try lia.
       intros _. exists 0. split_and!; [lia|done|done|apply H0]. }
  destruct (server 1) as [d1| |] eqn:E1; simpl.
  { split_and!; try done; try lia.
    intros data [= <-]. exists 1. split_and!; [lia|done|].
    by apply Hlt; [apply H0|]. }
  2: { split_and!; try done; try lia.
       intros _. exists 1. split_and!; [lia|done|done|].
       by apply Hlt; [apply H0|]. }
  destruct (server 2) as [d2| |] eqn:E2; simpl.
  - split_and!; try done; try lia.
    intros data [= <-]. exists 2. split_and!; [lia|done|].
    by apply Hlt; [apply Hlt; [apply H0|]|].
  - split_and!; try done; try lia.
    intros status [= <-]. split; [done|].
    by apply Hlt; [apply Hlt; [apply Hlt; [apply H0|]|]|].
  - split_and!; try done; try lia.
    intros _. exists 2. split_and!; [lia|done|done|].
    by apply Hlt; [apply Hlt; [apply H0|]|].
Qed.

End Request.

(** ** The merge and the whole run *)

Section Merge.
Context `{Shapely}.

Lemma filtered_gdf_app (l1 l2 : list feature) :
  filtered_gdf (l1 ++ l2) = filtered_gdf l1 ++ filtered_gdf l2.
Proof. unfold filtered_gdf. by rewrite !filter_app. Qed.

Lemma filtered_gdf_ineligible (f : feature) : ¬ eligible f → filtered_gdf [f] = [].
Proof.
  intros Hno. unfold filtered_gdf. rewrite (filter_cons _ f []).
  destruct (decide (is_Polygon (geom f) = true)) as [Hp|Hp]; [|done].
  rewrite filter_cons, filter_nil. case_decide as Hn; [|done].
  destruct Hno. split.
  - destruct (geom f); try done. by eexists.
  - unfold isin in Hn. apply bool_decide_eq_true in Hn.
    repeat (apply elem_of_cons in Hn as [Hn|Hn]; [tauto|]).
    by apply elem_of_nil in Hn.
Qed.

(** X15.  A feature that is not eligible (another category, a
    multipolygon, a line or a point) has no part in the artifact: the
    merged geometry is the same with and without it. *)
Theorem create_geodataframe_ignores (l1 l2 : list feature) (f : feature) :
  ¬ eligible f → l1 ++ l2 ≠ [] →
  create_geodataframe (l1 ++ f :: l2) = create_geodataframe (l1 ++ l2).
Proof.
  intros Hno _. unfold create_geodataframe.
  change (f :: l2) with ([f] ++ l2).
  by rewrite !filtered_gdf_app, filtered_gdf_ineligible, app_nil_l.
Qed.

End Merge.

Section WholeRun.
Context `{Shapely} (to_file : geometry polygon → geo_frame).
Import PyStr Spec AggregationFacts RunFacts FilenameFacts.

Lemma update_aggregated_csv_total (st : store) :
  ∃ st' trace, update_aggregated_csv st = Ok (st', trace).
Proof.
  destruct (update_aggregated_csv_run st) as (new & evs & _ & Hrun).
  rewrite Hrun. destruct new; by eexists _, _.
Qed.

(** the store [main] hands to the aggregation *)
Lemma main_done (now : date) (server : nat → outcome (list raw_feature))
    (st : store) data g geo_list :
  (make_api_request server).1 = Returned data →
  process_data data = Ok (g :: geo_list) →
  ∃ st' trace,
    update_aggregated_csv
      {| data_dir := <[OUTPUT_FILENAME now
                       := to_file (create_geodataframe (g :: geo_list))]> (data_dir st);
         csv_file := csv_file st |} = Ok (st', trace)
    ∧ main to_file now server st = (st', Done).
Proof.
  intros Hfetch Hdata. unfold main.
  destruct (make_api_request server) as [result tr]. simpl in Hfetch. subst result.
  rewrite Hdata.
  destruct (update_aggregated_csv_total
              {| data_dir := <[OUTPUT_FILENAME now
                    := to_file (create_geodataframe (g :: geo_list))]> (data_dir st);
                 csv_file := csv_file st |}) as (st' & trace & Hrun).
  exists st', trace. split; [done|]. by rewrite Hrun.
Qed.

(** X17.  A second run on a day the table already covers replaces the
    artifact of the day and leaves the table as it is for that day: the
    rows the table gains, if any, carry other dates, so what the new
    artifact holds does not reach the table. *)
Theorem main_same_day (now : date) (server : nat → outcome (list raw_feature))
    (st : store) data g geo_list :
  calendar_day now → (1000 ≤ year now)%Z →
  now ∈ covered (table st) →
  (make_api_request server).1 = Returned data →
  process_data data = Ok (g :: geo_list) →
  ∃ st' new,
    main to_file now server st = (st', Done)
    ∧ data_dir st'
      = <[OUTPUT_FILENAME now := to_file (create_geodataframe (g :: geo_list))]>
          (data_dir st)
    ∧ table st' = table st ++ new
    ∧ ∀ r, r ∈ new → date_of r ≠ now.
Proof.
  intros Hcal Hy Hcov Hfetch Hdata.
  destruct (main_done now server st data g geo_list Hfetch Hdata)
    as (st' & trace & Hrun & Hmain).
  set (written := {| data_dir := _; csv_file := csv_file st |}) in Hrun.
  assert (Hcsv : csv_file written ≠ Some []).
  { simpl. intros Hnil. unfold table in Hcov. rewrite Hnil in Hcov.
    by apply covered_inv in Hcov as (r & ?%elem_of_nil & _). }
  destruct (update_aggregated_csv_appends written Hcsv)
    as (st1 & trace1 & new & evs & Hrun1 & Hsteps & Hdir & Htable & _).
  rewrite Hrun in Hrun1. injection Hrun1 as <- <-.
  exists st', (concat new). split; [done|]. split; [done|]. split; [done|].
  intros r (df & Hdf & Hr)%elem_of_concat Hnow.
  destruct (scan_steps_frames _ _ _ _ df Hsteps Hdf)
    as (_ & f & c & d & _ & _ & _ & Hd & ->).
  rewrite (processed_rows_date _ _ _ Hr) in Hnow. by subst d.
Qed.

(** X18.  On a day the table does not cover, [main] writes the artifact
    of the day and the aggregation that follows reads it: the rows of its
    polygons, dated that day, are in the table afterwards, after the rows
    the table had. *)
Theorem main_new_day (now : date) (server : nat → outcome (list raw_feature))
    (st : store) data g geo_list :
  calendar_day now → (1000 ≤ year now)%Z →
  csv_file st ≠ Some [] →
  now ∉ covered (table st) →
  (make_api_request server).1 = Returned data →
  process_data data = Ok (g :: geo_list) →
  ∃ st' before after,
    main to_file now server st = (st', Done)
    ∧ table st'
      = table st ++ before
        ++ processed_rows now (to_file (create_geodataframe (g :: geo_list)))
        ++ after.
Proof.
  intros Hcal Hy Hcsv Hcov Hfetch Hdata.
  destruct (main_done now server st data g geo_list Hfetch Hdata)
    as (st' & trace & Hrun & Hmain).
  set (frame := to_file (create_geodataframe (g :: geo_list))) in *.
  set (written := {| data_dir := _; csv_file := csv_file st |}) in Hrun.
  destruct (update_aggregated_csv_appends written Hcsv)
    as (st1 & trace1 & new & evs & Hrun1 & Hsteps & _ & Htable & _).
  rewrite Hrun in Hrun1. injection Hrun1 as <- <-.
  rewrite (scan_steps_contribution _ _ _ _ Hsteps) in Htable.
  assert (Hin : (OUTPUT_FILENAME now, frame)
                ∈ sorted_by_name (listdir (data_dir written))).
  { apply elem_of_sorted_by_name. simpl. apply lookup_insert_eq. }
  apply list_elem_of_split in Hin as (l1 & l2 & Hl).
  exists st', (l1 ≫= contribution (covered (table st))),
    (l2 ≫= contribution (covered (table st))).
  split; [done|]. rewrite Htable, Hl, bind_app, bind_cons.
  change (table written) with (table st).
  rewrite (contribution_processed _ (OUTPUT_FILENAME now) frame now); [done|..|done].
  - apply output_filename_endswith.
  - by apply output_filename_extract.
Qed.

End WholeRun.

(** ** The added theorems on the examples *)

Section MoreExamples.
Import PyStr Spec LabelFacts AggregationFacts.

Lemma process_data_labels_witness :
  ∃ geo_list,
    process_data example_payload = Ok geo_list ∧ length geo_list = 4.
Proof.
  destruct (process_data_labels (H:=example_union_kernel) example_payload)
    as (geo_list & Hrun & Hall).
  - unfold example_payload.
    repeat (constructor; [exists 2; eexists "UA", _; split; reflexivity|]).
    constructor.
  - exists geo_list. split; [exact Hrun|].
    apply Forall2_length in Hall. by rewrite <- Hall.
Defined.

Lemma process_data_malformed_witness :
  process_data example_bad_payload = Raise IndexError.
Proof.
  apply (process_data_malformed (H:=example_union_kernel)).
  apply Exists_exists.
  exists (@Build_raw_feature example_union_kernel (Polygon 6%Z) "no delimiter").
  split.
  - apply elem_of_app. right. by left.
  - simpl. destruct (extract_first_part_cases "no delimiter") as [[_ [t Ht]]|[Hno _]].
    + discriminate Ht.
    + exact Hno.
Defined.

Lemma process_geojson_rows_witness :
  ∃ rows,
    process_geojson "data/deepstatemap_data_20240101.geojson" example_frame
    = Ok (rows, [ReadFile "data/deepstatemap_data_20240101.geojson"])
    ∧ length rows = 4.
Proof.
  destruct (process_geojson_rows (H:=example_kernel)
              "data/deepstatemap_data_20240101.geojson" (mkdate 2024 1 1)
              example_frame)
    as (rows & Hrun & Hlen & _).
  - reflexivity.
  - exists rows. split; [exact Hrun|exact Hlen].
Defined.


Lemma update_aggregated_csv_reads_witness :
  ∃ st' trace,
    update_aggregated_csv example_growing_store = Ok (st', trace)
    ∧ head trace = Some (ReadCsv "data/aggregated_deepstatemap.csv")
    ∧ ReadFile "data/deepstatemap_data_20240102.geojson" ∈ trace
    ∧ ReadFile "data/deepstatemap_data_20240101.geojson" ∉ trace.
Proof.
  destruct (update_aggregated_csv example_growing_store) as [[st' trace]|e] eqn:Hrun;
    [|vm_compute in Hrun; discriminate Hrun].
  destruct (update_aggregated_csv_reads example_growing_store st' trace Hrun)
    as (_ & Hhead & Hread).
  exists st', trace. split; [reflexivity|]. split; [|split].
  - apply Hhead. by eexists.
  - apply Hread.
    exists "deepstatemap_data_20240102.geojson", example_frame, (mkdate 2024 1 2).
    split; [reflexivity|]. split; [reflexivity|]. split; [reflexivity|].
    split; [reflexivity|].
    intros Hcov%elem_of_list_to_set. simpl in Hcov.
    apply list_elem_of_singleton in Hcov. discriminate Hcov.
  - intros (f & c & d & Hp & Hf & _ & Hd & Hcov)%Hread. simpl in Hf.
    apply lookup_insert_Some in Hf as [[<- _]|[_ Hf]].
    + vm_compute in Hd. injection Hd as <-. apply Hcov.
      apply elem_of_list_to_set. by left.
    + apply lookup_singleton_Some in Hf as [<- _]. vm_compute in Hp.
      discriminate Hp.
Defined.


Lemma rerun_settled_witness :
  ∃ st1 trace traces,
    rerun 4 example_twin_store = Ok (st1, trace :: traces)
    ∧ length traces = 3
    ∧ Forall (λ t, ∀ rows, WriteCsv rows ∉ t) traces.
Proof.
  destruct (rerun_settled example_twin_store 3)
    as (st1 & trace & traces & _ & Hrerun & Hlen & Hall).
  - discriminate.
  - exists st1, trace, traces. split; [exact Hrerun|]. split; [exact Hlen|exact Hall].
Defined.

Lemma update_aggregated_csv_name_order_witness :
  ∃ st' trace before between after,
    update_aggregated_csv example_twin_store = Ok (st', trace)
    ∧ table st' = table example_twin_store ++ before
                  ++ processed_rows (mkdate 2024 1 3) example_frame ++ between
                  ++ processed_rows (mkdate 2024 1 3) example_frame ++ after.
Proof.
  apply (update_aggregated_csv_name_order example_twin_store
           "deepstatemap_data_20240103.geojson" "deepstatemap_data_2024013.geojson").
  - discriminate.
  - exact I.
  - discriminate.
  - reflexivity.
  - reflexivity.
  - reflexivity.
  - reflexivity.
  - reflexivity.
  - reflexivity.
  - apply not_elem_of_empty.
  - apply not_elem_of_empty.
Defined.

Lemma make_api_request_first_success_witness :
  ∃ trace,
    make_api_request example_flaky_server = (Returned example_payload, trace)
    ∧ requests_made trace = 3
    ∧ seconds_slept trace = 10%Z
    ∧ last trace = Some Get.
Proof.
  apply (make_api_request_first_success example_flaky_server 2 example_payload).
  - unfold MAX_RETRIES. lia.
  - intros j Hj. unfold example_flaky_server.
    destruct (Nat.ltb_spec j 2); [reflexivity|lia].
  - reflexivity.
Defined.

Lemma make_api_request_exhausted_witness :
  (make_api_request example_dead_server).1 = SystemExit 1.
Proof.
  rewrite (make_api_request_exhausted example_dead_server).
  - reflexivity.
  - intros j _. reflexivity.
Defined.

Lemma create_geodataframe_ignores_witness :
  create_geodataframe
    [ @Build_feature example_union_kernel "Occupied" (Polygon 1%Z);
      @Build_feature example_union_kernel "Occupied" (MultiPolygon [3; 4]%Z);
      @Build_feature example_union_kernel "CADR and CALR" (Polygon 2%Z) ]
  = create_geodataframe
      [ @Build_feature example_union_kernel "Occupied" (Polygon 1%Z);
        @Build_feature example_union_kernel "CADR and CALR" (Polygon 2%Z) ].
Proof.
  apply (create_geodataframe_ignores (H:=example_union_kernel)
           [ @Build_feature example_union_kernel "Occupied" (Polygon 1%Z) ]
           [ @Build_feature example_union_kernel "CADR and CALR" (Polygon 2%Z) ]
           (@Build_feature example_union_kernel "Occupied" (MultiPolygon [3; 4]%Z))).
  - intros [[p Hp] _]. discriminate Hp.
  - discriminate.
Defined.

Lemma main_same_day_witness :
  ∃ st' new,
    main (H:=example_union_kernel) example_to_file (mkdate 2024 3 5) example_flaky_server example_covered_store
    = (st', Done)
    ∧ table st' = table example_covered_store ++ new
    ∧ ∀ r, r ∈ new → date_of r ≠ mkdate 2024 3 5.
Proof.
  destruct (main_same_day (H:=example_union_kernel) example_to_file (mkdate 2024 3 5) example_flaky_server
              example_covered_store example_payload
              (@Build_feature example_union_kernel "Occupied" (Polygon 1%Z))
              [ @Build_feature example_union_kernel "CADR and CALR" (Polygon 2%Z);
                @Build_feature example_union_kernel "Occupied" (MultiPolygon [3; 4]%Z);
                @Build_feature example_union_kernel "Unknown status" (Polygon 5%Z) ])
    as (st' & new & Hmain & _ & Htable & Hnew).
  - unfold calendar_day. simpl. lia.
  - simpl. lia.
  - apply elem_of_list_to_set. by left.
  - reflexivity.
  - reflexivity.
  - exists st', new. split; [exact Hmain|]. split; [exact Htable|exact Hnew].
Defined.

Lemma main_new_day_witness :
  ∃ st' before after,
    main (H:=example_union_kernel) example_to_file (mkdate 2024 3 5) example_flaky_server example_new_store
    = (st', Done)
    ∧ table st'
      = table example_new_store ++ before
        ++ processed_rows (mkdate 2024 3 5)
             (example_to_file (MultiPolygon [1; 2]%Z))
        ++ after.
Proof.
  apply (main_new_day (H:=example_union_kernel) example_to_file (mkdate 2024 3 5) example_flaky_server
           example_new_store example_payload
           (@Build_feature example_union_kernel "Occupied" (Polygon 1%Z))
           [ @Build_feature example_union_kernel "CADR and CALR" (Polygon 2%Z);
             @Build_feature example_union_kernel "Occupied" (MultiPolygon [3; 4]%Z);
             @Build_feature example_union_kernel "Unknown status" (Polygon 5%Z) ]).
  - unfold calendar_day. simpl. lia.
  - simpl. lia.
  - discriminate.
  - apply not_elem_of_empty.
  - reflexivity.
  - reflexivity.
Defined.

End MoreExamples.
